(** * google_drive_clone: file actions over the Appwrite stores

    A shallow embedding of [lib/utils.ts] ([getFileType], [parseStringify],
    [constructFileUrl]) and of [lib/actions/file.actions.ts]
    ([createQueries], [uploadFile], [getFiles], [deleteFile],
    [getTotalSpaceUsed]), together with a model of the node-appwrite calls
    those actions make.  Server actions are [async]; every [await] is
    sequential, so an action is a state transformer over the two stores that
    either resolves with a value or rejects with the thrown error.
    [getCurrentUser] of [lib/actions/user.actions.ts], which [getFiles] and
    [getTotalSpaceUsed] call, is embedded with them over the same state.

    The rest of the two files ([renameFile], [updateFileUsers], [getFileIcon],
    [constructDownloadUrl], [getUsageSummary], [getFileTypesParams]) and the
    user actions of [lib/actions/user.actions.ts] with [createSessionClient]
    and the root layout are embedded after them, in modules of their own. *)

From Stdlib Require Import ZArith Ascii String.
From stdpp Require Import base option list sorting gmap strings.

Local Open Scope string_scope.
Local Open Scope Z_scope.

(** ** JavaScript string primitives used by the sources *)

Module Js.

(** Strings are sequences of 8-bit codes: a JavaScript string is kept as
    its UTF-8 bytes, so that an ASCII character is one code below 128 and
    the separators ["."] and ["-"] occur only as themselves.  [is_ascii]:
    every code of the string is below 128. *)
Definition is_ascii (s : string) : bool :=
  forallb (λ c, (nat_of_ascii c <? 128)%nat) (list_ascii_of_string s).

(** [String.prototype.toLowerCase] on ASCII text, which is what the
    extension tables hold: the letters [A]..[Z] (codes 65..90) are moved to
    [a]..[z] and every other character is kept.  Codes from 128 on are kept
    too, which is what the method does to a character without a lower-case
    form; the cased letters outside ASCII, which the method lowers as well,
    are not modelled, and what is stated about case folding is stated of
    ASCII text ([is_ascii]). *)
Definition lower_ascii (c : ascii) : ascii :=
  let n := nat_of_ascii c in
  if ((65 <=? n) && (n <=? 90))%nat then ascii_of_nat (n + 32) else c.

Fixpoint toLowerCase (s : string) : string :=
  match s with
  | EmptyString => EmptyString
  | String c r => String (lower_ascii c) (toLowerCase r)
  end.

(** [s.split(sep)] for a one-character separator: the pieces between the
    occurrences of [sep], in order; a string without [sep] is its own only
    piece and the empty string splits into one empty piece. *)
Fixpoint split (sep : ascii) (s : string) : list string :=
  match s with
  | EmptyString => [EmptyString]
  | String c r =>
      if Ascii.eqb c sep then EmptyString :: split sep r
      else match split sep r with
           | [] => [String c EmptyString]
           | p :: ps => String c p :: ps
           end
  end.

(** [Array.prototype.pop]: the last element, [undefined] on an empty array. *)
Definition pop {A} (l : list A) : option A := last l.

(** [ToBoolean] on a string: only the empty string is falsy. *)
Definition truthy_string (s : string) : bool :=
  match s with EmptyString => false | _ => true end.

(** [Array.prototype.includes] on an array of strings. *)
Definition includes (l : list string) (s : string) : bool :=
  existsb (String.eqb s) l.

(** [String.prototype.includes]: [sub] occurs somewhere in [s], case
    included.  The sources do not call it; the sample deployments take it
    for the text search of their database. *)
Fixpoint str_includes (sub s : string) : bool :=
  String.prefix sub s ||
  match s with
  | EmptyString => false
  | String _ r => str_includes sub r
  end.

(** Numbers are IEEE 754 doubles.  The numbers the sources add are sizes in
    bytes, whole numbers that are doubles, which the model keeps as the
    integer they are.
    [round x] is the double nearest to the integer [x]: [x] itself up to
    2^53 in magnitude, and beyond that the nearest multiple of the spacing
    of the doubles around [x], a tie going to the even significand.
    (Magnitudes from 2^1024 on, where the result is [Infinity], are not
    modelled.) *)
Definition round (x : Z) : Z :=
  let m := Z.abs x in
  if m <? 2 ^ 53 then x
  else
    let e := Z.log2 m - 52 in
    let q := Z.shiftr m e in
    let r := Z.land m (Z.ones e) in
    let half := Z.shiftl 1 (e - 1) in
    let q := if (r <? half) || ((r =? half) && Z.even q) then q else q + 1 in
    Z.sgn x * Z.shiftl q e.

(** [a + b] on two whole numbers: the exact sum, rounded to a double. *)
Definition add (a b : Z) : Z := round (a + b).
#[global] Arguments add : simpl never.

End Js.

(** ** lib/utils.ts *)

Module Utils.

(** type FileType = "document" | "image" | "video" | "audio" | "other" *)
Inductive FileType := document | image | video | audio | other.

#[global] Instance FileType_eq_dec : EqDecision FileType.
Proof. solve_decision. Defined.

Definition FileType_to_string (t : FileType) : string :=
  match t with
  | document => "document" | image => "image" | video => "video"
  | audio => "audio" | other => "other"
  end.

Record FileTypeInfo := { type : FileType; extension : string }.

Definition documentExtensions : list string :=
  [ "pdf"; "doc"; "docx"; "txt"; "xls"; "xlsx"; "csv"; "rtf"; "ods"; "ppt";
    "odp"; "md"; "html"; "htm"; "epub"; "pages"; "fig"; "psd"; "ai"; "indd";
    "xd"; "sketch"; "afdesign"; "afphoto" ].
Definition imageExtensions : list string :=
  [ "jpg"; "jpeg"; "png"; "gif"; "bmp"; "svg"; "webp" ].
Definition videoExtensions : list string := [ "mp4"; "avi"; "mov"; "mkv"; "webm" ].
Definition audioExtensions : list string := [ "mp3"; "wav"; "ogg"; "flac" ].

(** [fileName.split(".").pop()?.toLowerCase()] *)
Definition extension_of (fileName : string) : option string :=
  Js.toLowerCase <$> Js.pop (Js.split "." fileName).

Definition getFileType (fileName : string) : FileTypeInfo :=
  match extension_of fileName with
  | None => {| type := other; extension := "" |}
  | Some extension =>
      if negb (Js.truthy_string extension) then {| type := other; extension := "" |}
      else if Js.includes documentExtensions extension
      then {| type := document; extension := extension |}
      else if Js.includes imageExtensions extension
      then {| type := image; extension := extension |}
      else if Js.includes videoExtensions extension
      then {| type := video; extension := extension |}
      else if Js.includes audioExtensions extension
      then {| type := audio; extension := extension |}
      else {| type := other; extension := extension |}
  end.

(** [JSON.parse(JSON.stringify(value))]: on the plain data the actions pass
    to it (documents, document lists, object literals of strings, numbers
    and arrays) the round trip gives back an equal value. *)
Definition parseStringify {A} (value : A) : A := value.

End Utils.

Import Utils.

(** ** The node-appwrite services the actions call

    Modelled from the spec: the Blob Store Client and the Metadata Store
    Client of its section 6, which in the code are the [Storage] and
    [Databases] services of node-appwrite.  The SDK and the Appwrite server
    are not part of the repository; what the actions rely on is modelled
    here: one storage bucket, one files collection, and for every request an
    outcome chosen by the environment (it resolves, or it rejects with an
    error the action sees as a thrown value).  The file actions only read
    the identity provider and the users collection, through
    [getCurrentUser]; what these two answer is the environment's choice as
    well. *)

Module Appwrite.

(** A thrown value: the message of the [AppwriteException] or [Error]. *)
Definition Error := string.

(** The browser [File] handed to [uploadFile]. *)
Record File := { file_name : string; file_bytes : list Byte.byte }.

(** [Models.File]: what [storage.createFile] resolves with. *)
Record BucketFile := {
  bf_id : string;              (* $id *)
  bf_name : string;            (* name *)
  bf_sizeOriginal : Z;         (* sizeOriginal *)
  bf_bytes : list Byte.byte    (* the stored object *)
}.

(** The object literal [fileDocument] of [uploadFile]; [size] is a number
    holding a whole number of bytes. *)
Record FileDocument := {
  fd_type : FileType;
  fd_name : string;
  fd_url : string;
  fd_extension : string;
  fd_size : Z;
  fd_owner : string;
  fd_accountId : string;
  fd_users : list string;
  fd_bucketFileId : string
}.

(** [Models.Document] of the files collection: the stored attributes and the
    fields the database assigns. *)
Record Document := {
  doc_id : string;             (* $id *)
  doc_createdAt : string;      (* $createdAt *)
  doc_updatedAt : string;      (* $updatedAt *)
  doc_data : FileDocument
}.

(** [Models.DocumentList] *)
Record DocumentList := { total : Z; documents : list Document }.

(** The user document [getCurrentUser] resolves with, as far as the file
    actions read it: [$id] and [email]. *)
Record User := { user_id : string; user_email : string }.

(** What a promise settles to: it resolves with a value, or it rejects with
    the thrown error. *)
Inductive Outcome (A : Type) :=
| Resolved (a : A)
| Rejected (e : Error).
Arguments Resolved {A} a.
Arguments Rejected {A} e.

(** [Query.*] builders; node-appwrite serialises them, the model keeps the
    structure. *)
#[local] Set Warnings "-register-all".
Inductive Query :=
| Q_or (queries : list Query)
| Q_equal (attribute : string) (values : list string)
| Q_contains (attribute : string) (values : list string)
| Q_limit (limit : Z)
| Q_orderAsc (attribute : string)
| Q_orderDesc (attribute : string).

(** Requests issued to the services, in the order they were made. *)
Inductive Request :=
| ReqCreateFile (fileId : string)
| ReqDeleteFile (fileId : string)
| ReqCreateDocument (documentId : string) (data : FileDocument)
| ReqDeleteDocument (documentId : string)
| ReqListDocuments (queries : list Query)
| ReqAccountGet
| ReqListUsers (queries : list Query).

(** What a request settles to, as chosen by the environment. *)
Record Env := {
  (* process.env / appwriteConfig *)
  endpointUrl : string;
  projectId : string;
  bucketId : string;
  (* ID.unique(): the n-th identifier handed out *)
  unique : nat -> string;
  (* the database clock *)
  now : string;
  (* default page size of listDocuments when no Query.limit is given *)
  defaultLimit : nat;
  (* faults: [Some e] makes the request reject with [e] *)
  createFile_fault : option Error;
  deleteFile_fault : option Error;
  createDocument_fault : option Error;
  deleteDocument_fault : option Error;
  listDocuments_fault : option Error;
  (* how the database decides [contains] on a text attribute, which the
     sources leave to it: [textContains value text] *)
  textContains : string → string → bool;
  (* the "appwrite-session" cookie read by createSessionClient *)
  sessionCookie : option string;
  (* account.get() of the session's client: the account's $id *)
  account_of_session : Outcome string;
  (* databases.listDocuments on the users collection, for the documents
     whose accountId is the given one: the documents, oldest first *)
  users_of_account : string → Outcome (list User)
}.

(** A call of [console.log]: [console.log(error, message)] in
    [handleError], [console.log({files})] in [getFiles], [console.log(error)]
    in [getCurrentUser]. *)
Inductive LogEntry :=
| LogError (error : Error) (message : string)
| LogFiles (files : DocumentList)
| LogValue (error : Error).

(** Everything an action can change. *)
Record Backend := {
  bucket : gmap string BucketFile;
  files : gmap string Document;
  minted : nat;
  requests : list Request;
  console : list LogEntry;
  revalidated : list string
}.

Definition set_bucket (f : gmap string BucketFile → gmap string BucketFile) (b : Backend) :=
  {| bucket := f (bucket b); files := files b; minted := minted b;
     requests := requests b; console := console b; revalidated := revalidated b |}.
Definition set_files (f : gmap string Document → gmap string Document) (b : Backend) :=
  {| bucket := bucket b; files := f (files b); minted := minted b;
     requests := requests b; console := console b; revalidated := revalidated b |}.
Definition set_minted (n : nat) (b : Backend) :=
  {| bucket := bucket b; files := files b; minted := n;
     requests := requests b; console := console b; revalidated := revalidated b |}.
Definition add_request (r : Request) (b : Backend) :=
  {| bucket := bucket b; files := files b; minted := minted b;
     requests := requests b ++ [r]; console := console b; revalidated := revalidated b |}.
Definition add_console (entry : LogEntry) (b : Backend) :=
  {| bucket := bucket b; files := files b; minted := minted b;
     requests := requests b; console := console b ++ [entry];
     revalidated := revalidated b |}.
Definition add_revalidated (path : string) (b : Backend) :=
  {| bucket := bucket b; files := files b; minted := minted b;
     requests := requests b; console := console b;
     revalidated := revalidated b ++ [path] |}.

(** *** Promises as a state and exception monad *)

Definition Action (A : Type) : Type := Backend → Outcome A * Backend.

Definition ret {A} (a : A) : Action A := λ b, (Resolved a, b).
Definition throw {A} (e : Error) : Action A := λ b, (Rejected e, b).
Definition bind {A B} (m : Action A) (k : A → Action B) : Action B :=
  λ b, match m b with
       | (Resolved a, b') => k a b'
       | (Rejected e, b') => (Rejected e, b')
       end.
(** [try { m } catch (error) { h error }] and [m.catch(h)] *)
Definition catch {A} (m : Action A) (h : Error → Action A) : Action A :=
  λ b, match m b with
       | (Resolved a, b') => (Resolved a, b')
       | (Rejected e, b') => h e b'
       end.


#[global] Instance Action_ret : MRet Action := @ret.
#[global] Instance Action_bind : MBind Action := λ A B k m, bind m k.

(** *** Evaluation of queries by the database

    Modelled from the spec: how the metadata store reads the predicates
    that [createQueries] builds. *)

Inductive AttrValue :=
| AStr (s : string)
| ANum (n : Z)
| AArr (l : list string).

(** The attribute [a] of a stored document. *)
Definition attr (d : Document) (a : string) : option AttrValue :=
  let f := doc_data d in
  if String.eqb a "$id" then Some (AStr (doc_id d))
  else if String.eqb a "$createdAt" then Some (AStr (doc_createdAt d))
  else if String.eqb a "$updatedAt" then Some (AStr (doc_updatedAt d))
  else if String.eqb a "type" then Some (AStr (FileType_to_string (fd_type f)))
  else if String.eqb a "name" then Some (AStr (fd_name f))
  else if String.eqb a "url" then Some (AStr (fd_url f))
  else if String.eqb a "extension" then Some (AStr (fd_extension f))
  else if String.eqb a "size" then Some (ANum (fd_size f))
  else if String.eqb a "owner" then Some (AStr (fd_owner f))
  else if String.eqb a "accountId" then Some (AStr (fd_accountId f))
  else if String.eqb a "users" then Some (AArr (fd_users f))
  else if String.eqb a "bucketFileId" then Some (AStr (fd_bucketFileId f))
  else None.

(** [equal]: the attribute is one of the values. *)
Definition holds_equal (v : option AttrValue) (values : list string) : bool :=
  match v with
  | Some (AStr s) => Js.includes values s
  | _ => false
  end.

(** [contains]: an array attribute has one of the values as an element; a
    text attribute contains one of the values, which is for the database to
    decide ([contains value text]: whether it tells upper from lower case is
    not fixed by the sources). *)
Definition holds_contains (contains : string → string → bool)
    (v : option AttrValue) (values : list string) : bool :=
  match v with
  | Some (AStr s) => existsb (λ x, contains x s) values
  | Some (AArr l) => existsb (λ x, Js.includes l x) values
  | _ => false
  end.

(** A document passes a query; [limit] and the orders select nothing. *)
Fixpoint passes (contains : string → string → bool) (d : Document) (q : Query)
  : bool :=
  match q with
  | Q_or queries => existsb (passes contains d) queries
  | Q_equal a values => holds_equal (attr d a) values
  | Q_contains a values => holds_contains contains (attr d a) values
  | Q_limit _ | Q_orderAsc _ | Q_orderDesc _ => true
  end.

Definition passes_all (contains : string → string → bool) (queries : list Query)
    (d : Document) : bool :=
  forallb (passes contains d) queries.

(** Order of two attribute values: numbers by value, strings by code unit. *)
Definition attr_compare (x y : option AttrValue) : comparison :=
  match x, y with
  | Some (ANum m), Some (ANum n) => Z.compare m n
  | Some (AStr s), Some (AStr t) => String.compare s t
  | _, _ => Eq
  end.

(** [d1] may come before [d2] under the order queries, taken in sequence. *)
Fixpoint doc_leb (queries : list Query) (d1 d2 : Document) : bool :=
  match queries with
  | [] => true
  | Q_orderAsc a :: rest =>
      match attr_compare (attr d1 a) (attr d2 a) with
      | Lt => true | Gt => false | Eq => doc_leb rest d1 d2
      end
  | Q_orderDesc a :: rest =>
      match attr_compare (attr d1 a) (attr d2 a) with
      | Lt => false | Gt => true | Eq => doc_leb rest d1 d2
      end
  | _ :: rest => doc_leb rest d1 d2
  end.

Definition doc_le (queries : list Query) (d1 d2 : Document) : Prop :=
  doc_leb queries d1 d2 = true.

#[global] Instance doc_le_dec queries d1 d2 : Decision (doc_le queries d1 d2).
Proof. unfold doc_le. apply _. Defined.

(** The page size: the first [limit] query, else the default. *)
Fixpoint page_size (default : nat) (queries : list Query) : nat :=
  match queries with
  | [] => default
  | Q_limit n :: _ => Z.to_nat n
  | _ :: rest => page_size default rest
  end.

Definition select (contains : string → string → bool) (default : nat)
    (queries : list Query) (stored : list Document) : DocumentList :=
  let matching := filter (λ d, passes_all contains queries d = true) stored in
  {| total := Z.of_nat (length matching);
     documents := take (page_size default queries)
                       (merge_sort (doc_le queries) matching) |}.

(** *** The services *)

Section Services.
Variable env : Env.

(** [ID.unique()] *)
Definition ID_unique : Action string :=
  λ b, (Resolved (unique env (minted b)), set_minted (S (minted b)) b).

(** Modelled from the spec: [storage.createFile(bucketId, fileId, file)], the
    blob store's [put].  Unless it rejects, the object is stored under
    [fileId] with the file's name and size. *)
Definition storage_createFile (fileId : string) (file : File) : Action BucketFile :=
  λ b, let b := add_request (ReqCreateFile fileId) b in
       match createFile_fault env with
       | Some e => (Rejected e, b)
       | None =>
           let stored := {| bf_id := fileId; bf_name := file_name file;
                            bf_sizeOriginal := Z.of_nat (length (file_bytes file));
                            bf_bytes := file_bytes file |} in
           (Resolved stored, set_bucket (insert fileId stored) b)
       end.

(** Modelled from the spec: [storage.deleteFile(bucketId, fileId)], the blob
    store's [delete].  Unless it rejects, no object is left under [fileId]. *)
Definition storage_deleteFile (fileId : string) : Action unit :=
  λ b, let b := add_request (ReqDeleteFile fileId) b in
       match deleteFile_fault env with
       | Some e => (Rejected e, b)
       | None => (Resolved (), set_bucket (delete fileId) b)
       end.

(** Modelled from the spec:
    [databases.createDocument(databaseId, filesCollectionId, documentId, data)],
    the metadata store's [insert].  The create is atomic: it rejects and
    stores nothing, or it stores the whole document, stamped by the
    database, and resolves with it. *)
Definition databases_createDocument (documentId : string) (data : FileDocument)
  : Action Document :=
  λ b, let b := add_request (ReqCreateDocument documentId data) b in
       match createDocument_fault env with
       | Some e => (Rejected e, b)
       | None =>
           let stored := {| doc_id := documentId; doc_createdAt := now env;
                            doc_updatedAt := now env; doc_data := data |} in
           (Resolved stored, set_files (insert documentId stored) b)
       end.

(** Modelled from the spec:
    [databases.deleteDocument(databaseId, filesCollectionId, documentId)], the
    metadata store's [delete].  node-appwrite declares it [Promise<{}>]: it
    resolves with an object, and [ToBoolean] of an object is [true], which is
    all [deleteFile] asks of the value. *)
Definition databases_deleteDocument (documentId : string) : Action bool :=
  λ b, let b := add_request (ReqDeleteDocument documentId) b in
       match deleteDocument_fault env with
       | Some e => (Rejected e, b)
       | None => (Resolved true, set_files (delete documentId) b)
       end.

(** Modelled from the spec:
    [databases.listDocuments(databaseId, filesCollectionId, queries)], the
    metadata store's [query]: the stored documents that pass every query,
    ordered and cut to the page size. *)
Definition databases_listDocuments (queries : list Query) : Action DocumentList :=
  λ b, let b := add_request (ReqListDocuments queries) b in
       match listDocuments_fault env with
       | Some e => (Rejected e, b)
       | None =>
           (Resolved (select (textContains env) (defaultLimit env) queries
                             (snd <$> map_to_list (files b))), b)
       end.

(** [createSessionClient()]: throws when the session cookie is missing or
    empty. *)
Definition createSessionClient : Action unit :=
  match sessionCookie env with
  | Some value => if Js.truthy_string value then ret () else throw "No session"
  | None => throw "No session"
  end.

(** [console.log(...)] *)
Definition console_log (entry : LogEntry) : Action unit :=
  λ b, (Resolved (), add_console entry b).

(** Modelled from the spec: [account.get()] of the session's client, a
    request to the identity provider of the spec's section 6; it resolves
    with the account, of which [getCurrentUser] reads the [$id]. *)
Definition account_get : Action string :=
  λ b, (account_of_session env, add_request ReqAccountGet b).

(** Modelled from the spec:
    [databases.listDocuments(databaseId, usersCollectionId, queries)] with the
    one query [Query.equal("accountId", accountId)]. *)
Definition databases_listUsers (accountId : string) : Action (list User) :=
  λ b, (users_of_account env accountId,
        add_request (ReqListUsers [Q_equal "accountId" [accountId]]) b).

(** [getCurrentUser()] of lib/actions/user.actions.ts.  It resolves with the
    first user document of the session's account, with [null] when the
    account has none, and, after logging the error, with [undefined] when
    the session is missing or one of its two requests fails; [None] stands
    for both [null] and [undefined], of which the callers only ask whether
    they are falsy. *)
Definition getCurrentUser : Action (option User) :=
  catch
    (createSessionClient;;
     result ← account_get;
     user ← databases_listUsers result;
     if (length user <=? 0)%nat then mret None
     else mret (parseStringify (head user)))
    (λ error, console_log (LogValue error);; mret None).

(** [revalidatePath(path)] of next/cache *)
Definition revalidatePath (path : string) : Action unit :=
  λ b, (Resolved (), add_revalidated path b).

(** [constructFileUrl] of lib/utils.ts *)
Definition constructFileUrl (bucketFileId : string) : string :=
  endpointUrl env ++ "/storage/buckets/" ++ bucketId env ++ "/files/" ++
  bucketFileId ++ "/view?project=" ++ projectId env.

End Services.

End Appwrite.

Import Appwrite.

(** ** lib/actions/file.actions.ts *)

Module FileActions.

Record UploadFileProps := {
  file : File;
  ownerId : string;
  accountId : string;
  path : string
}.

(** Optional fields are [None] when the caller leaves them out. *)
Record GetFilesProps := {
  gf_types : option (list string);
  gf_searchText : option string;
  gf_sort : option string;
  gf_limit : option Z
}.

Record DeleteFileProps := {
  fileId : string;
  bucketFileId : string;
  df_path : string
}.

(** The literal [{ status: "success" }]. *)
Record Status := { status : string }.

(** One entry of [totalSpace]. *)
Record Usage := { u_size : Z; u_latestDate : string }.

(** The [totalSpace] object of [getTotalSpaceUsed]; sizes are numbers of
    bytes, added with [+] on doubles ([Js.add]). *)
Record TotalSpace := {
  ts_image : Usage;
  ts_document : Usage;
  ts_video : Usage;
  ts_audio : Usage;
  ts_other : Usage;
  ts_used : Z;
  ts_all : Z
}.

(** [totalSpace[fileType]] *)
Definition usage_of (t : TotalSpace) (fileType : FileType) : Usage :=
  match fileType with
  | image => ts_image t | document => ts_document t | video => ts_video t
  | audio => ts_audio t | other => ts_other t
  end.

(** [totalSpace[fileType] = u] *)
Definition with_usage (t : TotalSpace) (fileType : FileType) (u : Usage) : TotalSpace :=
  {| ts_image := if decide (fileType = image) then u else ts_image t;
     ts_document := if decide (fileType = document) then u else ts_document t;
     ts_video := if decide (fileType = video) then u else ts_video t;
     ts_audio := if decide (fileType = audio) then u else ts_audio t;
     ts_other := if decide (fileType = other) then u else ts_other t;
     ts_used := ts_used t; ts_all := ts_all t |}.

Definition with_used (t : TotalSpace) (n : Z) : TotalSpace :=
  {| ts_image := ts_image t; ts_document := ts_document t; ts_video := ts_video t;
     ts_audio := ts_audio t; ts_other := ts_other t; ts_used := n; ts_all := ts_all t |}.

(** [createQueries(currentUser, types, searchText, sort, limit)] *)
Definition createQueries (currentUser : User) (types : list string)
    (searchText : string) (sort : string) (limit : option Z) : list Query :=
  let queries :=
    [ Q_or [ Q_equal "owner" [user_id currentUser];
             Q_contains "users" [user_email currentUser] ] ] in
  let queries :=
    if (0 <? length types)%nat then (queries ++ [Q_equal "type" types])%list else queries in
  let queries :=
    if Js.truthy_string searchText then (queries ++ [Q_contains "name" [searchText]])%list
    else queries in
  let queries :=
    match limit with
    | Some n => if negb (n =? 0) then (queries ++ [Q_limit n])%list else queries
    | None => queries
    end in
  if Js.truthy_string sort then
    let pieces := Js.split "-" sort in
    let sortBy := default "" (pieces !! 0%nat) in
    let orderBy := pieces !! 1%nat in
    (queries ++ [ if bool_decide (orderBy = Some "asc") then Q_orderAsc sortBy
                  else Q_orderDesc sortBy ])%list
  else queries.

Section Actions.
Variable env : Env.

(** [new Date(s).valueOf()]: the instant in milliseconds, [None] for an
    Invalid Date (NaN). *)
Variable Date_valueOf : string → option Z.

(** [new Date(a) > new Date(b)]; a comparison with NaN is false. *)
Definition Date_gt (a b : string) : bool :=
  match Date_valueOf a, Date_valueOf b with
  | Some x, Some y => y <? x
  | _, _ => false
  end.

(** [handleError(error, message)]: log, then rethrow. *)
Definition handleError {A} (error : Error) (message : string) : Action A :=
  console_log (LogError error message);; throw error.

(** [createAdminClient()] only builds the service objects.  The [inputFile]
    made by [InputFile.fromBuffer] is not used: [file] itself is passed to
    [storage.createFile]. *)
Definition uploadFile (props : UploadFileProps) : Action Document :=
  catch
    (fileId ← ID_unique env;
     bucketFile ← storage_createFile env fileId (file props);
     let fileDocument :=
       {| fd_type := type (getFileType (bf_name bucketFile));
          fd_name := bf_name bucketFile;
          fd_url := constructFileUrl env (bf_id bucketFile);
          fd_extension := extension (getFileType (bf_name bucketFile));
          fd_size := bf_sizeOriginal bucketFile;
          fd_owner := ownerId props;
          fd_accountId := accountId props;
          fd_users := [];
          fd_bucketFileId := bf_id bucketFile |} in
     documentId ← ID_unique env;
     newFile ← catch (databases_createDocument env documentId fileDocument)
                 (λ error,
                    storage_deleteFile env (bf_id bucketFile);;
                    handleError error "Failed to create file document");
     revalidatePath (path props);;
     mret (parseStringify newFile))
    (λ error, handleError error "Failed to upload file").

Definition getFiles (props : GetFilesProps) : Action DocumentList :=
  let types := default [] (gf_types props) in
  let searchText := default "" (gf_searchText props) in
  let sort := default "$createdAt-desc" (gf_sort props) in
  let limit := gf_limit props in
  catch
    (currentUser ← getCurrentUser env;
     match currentUser with
     | None => throw "User not found"
     | Some currentUser =>
         let queries := createQueries currentUser types searchText sort limit in
         files ← databases_listDocuments env queries;
         console_log (LogFiles files);;
         mret (parseStringify files)
     end)
    (λ error, handleError error "Failed to get files").

Definition deleteFile (props : DeleteFileProps) : Action Status :=
  catch
    (deletedFile ← databases_deleteDocument env (fileId props);
     (if deletedFile : bool then storage_deleteFile env (bucketFileId props)
      else mret ());;
     revalidatePath (df_path props);;
     mret (parseStringify {| status := "success" |}))
    (λ error, handleError error "Failed to rename file").

(** The initial [totalSpace] literal. *)
Definition totalSpace_init : TotalSpace :=
  {| ts_image := {| u_size := 0; u_latestDate := "" |};
     ts_document := {| u_size := 0; u_latestDate := "" |};
     ts_video := {| u_size := 0; u_latestDate := "" |};
     ts_audio := {| u_size := 0; u_latestDate := "" |};
     ts_other := {| u_size := 0; u_latestDate := "" |};
     ts_used := 0;
     ts_all := 2 * 1024 * 1024 * 1024 |}.

(** The callback of [files.documents.forEach]. *)
Definition addFile (totalSpace : TotalSpace) (f : Document) : TotalSpace :=
  let fileType := fd_type (doc_data f) in
  let totalSpace :=
    with_usage totalSpace fileType
      {| u_size := Js.add (u_size (usage_of totalSpace fileType))
                          (fd_size (doc_data f));
         u_latestDate := u_latestDate (usage_of totalSpace fileType) |} in
  let totalSpace :=
    with_used totalSpace (Js.add (ts_used totalSpace) (fd_size (doc_data f))) in
  if negb (Js.truthy_string (u_latestDate (usage_of totalSpace fileType)))
     || Date_gt (doc_updatedAt f) (u_latestDate (usage_of totalSpace fileType))
  then with_usage totalSpace fileType
         {| u_size := u_size (usage_of totalSpace fileType);
            u_latestDate := doc_updatedAt f |}
  else totalSpace.

(** The pass over [files.documents] (lines 233 to 254). *)
Definition summarize (docs : list Document) : TotalSpace :=
  foldl addFile totalSpace_init docs.

Definition getTotalSpaceUsed : Action TotalSpace :=
  catch
    (createSessionClient env;;
     currentUser ← getCurrentUser env;
     match currentUser with
     | None => throw "User is not authenticated."
     | Some currentUser =>
         files ← databases_listDocuments env [Q_equal "owner" [user_id currentUser]];
         mret (parseStringify (summarize (documents files)))
     end)
    (λ error, handleError error "Error calculating total space used:, ").

End Actions.

End FileActions.

Import FileActions.

(** ** lib/actions/file.actions.ts: renameFile and updateFileUsers *)

Module FileUpdates.

(** The data object handed to [databases.updateDocument]: the attributes it
    names are replaced, the others are kept.  [renameFile] passes
    [{ name }], [updateFileUsers] passes [{ users }]. *)
Record Patch := {
  patch_name : option string;
  patch_users : option (list string)
}.

(** What the environment adds for an update request. *)
Record UpdateEnv := {
  (* [Some e] makes the request reject with [e] *)
  updateDocument_fault : option Error;
  (* the error the database answers for an identifier it does not hold *)
  document_not_found : Error
}.

Record RenameFileProps := {
  rf_fileId : string;
  rf_name : string;
  rf_extension : string;
  rf_path : string
}.

Record UpdateFileUsersProps := {
  uf_fileId : string;
  uf_emails : list string;
  uf_path : string
}.

(** The stored document after an update: the patched attributes, and a new
    [$updatedAt]. *)
Definition patched (stamp : string) (p : Patch) (d : Document) : Document :=
  let f := doc_data d in
  {| doc_id := doc_id d;
     doc_createdAt := doc_createdAt d;
     doc_updatedAt := stamp;
     doc_data :=
       {| fd_type := fd_type f;
          fd_name := default (fd_name f) (patch_name p);
          fd_url := fd_url f;
          fd_extension := fd_extension f;
          fd_size := fd_size f;
          fd_owner := fd_owner f;
          fd_accountId := fd_accountId f;
          fd_users := default (fd_users f) (patch_users p);
          fd_bucketFileId := fd_bucketFileId f |} |}.

Section Updates.
Variable env : Env.
Variable uenv : UpdateEnv.

(** Modelled from the spec:
    [databases.updateDocument(databaseId, filesCollectionId, documentId, data)],
    the metadata store's [update].  It rejects and changes nothing, for a
    fault or for an identifier the collection does not hold, or it stores the
    patched document and resolves with it.  The request is not added to
    [requests], which keeps the calls of the other actions only. *)
Definition databases_updateDocument (documentId : string) (data : Patch)
  : Action Document :=
  λ b, match updateDocument_fault uenv with
       | Some e => (Rejected e, b)
       | None =>
           match files b !! documentId with
           | None => (Rejected (document_not_found uenv), b)
           | Some d =>
               let stored := patched (now env) data d in
               (Resolved stored, set_files (insert documentId stored) b)
           end
       end.

Definition renameFile (props : RenameFileProps) : Action Document :=
  catch
    (let newName := rf_name props ++ "." ++ rf_extension props in
     updatedFile ← databases_updateDocument (rf_fileId props)
                     {| patch_name := Some newName; patch_users := None |};
     revalidatePath (rf_path props);;
     mret (parseStringify updatedFile))
    (λ error, handleError error "Failed to rename file").

Definition updateFileUsers (props : UpdateFileUsersProps) : Action Document :=
  catch
    (updatedFile ← databases_updateDocument (uf_fileId props)
                     {| patch_name := None; patch_users := Some (uf_emails props) |};
     revalidatePath (uf_path props);;
     mret (parseStringify updatedFile))
    (λ error, handleError error "Failed to rename file").

End Updates.

End FileUpdates.

Import FileUpdates.

(** ** lib/utils.ts: icons, download links and the dashboard *)

Module Dashboard.

(** The inner [switch (type)] of [getFileIcon]. *)
Definition icon_of_type (type : string) : string :=
  if String.eqb type "image" then "/assets/icons/file-image.svg"
  else if String.eqb type "document" then "/assets/icons/file-document.svg"
  else if String.eqb type "video" then "/assets/icons/file-video.svg"
  else if String.eqb type "audio" then "/assets/icons/file-audio.svg"
  else "/assets/icons/file-other.svg".

(** [getFileIcon(extension, type)]; an [undefined] extension meets no
    [case]. *)
Definition getFileIcon (extension : option string) (type : string) : string :=
  match extension with
  | None => icon_of_type type
  | Some e =>
      if String.eqb e "pdf" then "/assets/icons/file-pdf.svg"
      else if String.eqb e "doc" then "/assets/icons/file-doc.svg"
      else if String.eqb e "docx" then "/assets/icons/file-docx.svg"
      else if String.eqb e "csv" then "/assets/icons/file-csv.svg"
      else if String.eqb e "txt" then "/assets/icons/file-txt.svg"
      else if Js.includes ["xls"; "xlsx"] e then "/assets/icons/file-document.svg"
      else if String.eqb e "svg" then "/assets/icons/file-image.svg"
      else if Js.includes
                ["mkv"; "mov"; "avi"; "wmv"; "mp4"; "flv"; "webm"; "m4v"; "3gp"] e
      then "/assets/icons/file-video.svg"
      else if Js.includes
                ["mp3"; "mpeg"; "wav"; "aac"; "flac"; "ogg"; "wma"; "m4a"; "aiff";
                 "alac"] e
      then "/assets/icons/file-audio.svg"
      else icon_of_type type
  end.

(** [constructDownloadUrl(bucketFileId)] *)
Definition constructDownloadUrl (env : Env) (bucketFileId : string) : string :=
  endpointUrl env ++ "/storage/buckets/" ++ bucketId env ++ "/files/" ++
  bucketFileId ++ "/download?project=" ++ projectId env.

(** [a > b] on two strings: the order of their code units. *)
Definition string_gt (a b : string) : bool :=
  match String.compare a b with Gt => true | _ => false end.

(** One element of the array [getUsageSummary] returns. *)
Record UsageCard := {
  card_title : string;
  card_size : Z;
  card_latestDate : string;
  card_icon : string;
  card_url : string
}.

Definition getUsageSummary (totalSpace : TotalSpace) : list UsageCard :=
  [ {| card_title := "Documents";
       card_size := u_size (ts_document totalSpace);
       card_latestDate := u_latestDate (ts_document totalSpace);
       card_icon := "/assets/icons/file-document-light.svg";
       card_url := "/documents" |};
    {| card_title := "Images";
       card_size := u_size (ts_image totalSpace);
       card_latestDate := u_latestDate (ts_image totalSpace);
       card_icon := "/assets/icons/file-image-light.svg";
       card_url := "/images" |};
    {| card_title := "Media";
       card_size := Js.add (u_size (ts_video totalSpace))
                           (u_size (ts_audio totalSpace));
       card_latestDate :=
         if string_gt (u_latestDate (ts_video totalSpace))
                      (u_latestDate (ts_audio totalSpace))
         then u_latestDate (ts_video totalSpace)
         else u_latestDate (ts_audio totalSpace);
       card_icon := "/assets/icons/file-video-light.svg";
       card_url := "/media" |};
    {| card_title := "Others";
       card_size := u_size (ts_other totalSpace);
       card_latestDate := u_latestDate (ts_other totalSpace);
       card_icon := "/assets/icons/file-other-light.svg";
       card_url := "/others" |} ].

Definition getFileTypesParams (type : string) : list string :=
  if String.eqb type "documents" then ["document"]
  else if String.eqb type "images" then ["image"]
  else if String.eqb type "media" then ["video"; "audio"]
  else if String.eqb type "others" then ["other"]
  else ["document"].

End Dashboard.

Import Dashboard.

(** ** lib/actions/user.actions.ts, lib/appwrite/index.ts and the root layout

    Modelled from the spec: the identity provider of its section 6, which in
    the code is the [Account] service of node-appwrite with the users
    collection, the cookie store of next/headers and [redirect] of
    next/navigation.  None of them is part of the repository; what the actions
    rely on is modelled here, each request settling as the environment
    chooses. *)

Module UserActions.

(** A document of the users collection. *)
Record UserDocument := {
  ud_id : string;              (* $id *)
  ud_fullName : string;
  ud_email : string;
  ud_avatar : string;
  ud_accountId : string
}.

(** [Models.Session], as far as it is used. *)
Record Session := { session_id : string; session_secret : string }.

(** What can be thrown: an error, or the signal by which [redirect] leaves
    the function that calls it. *)
Inductive Thrown :=
| Err (message : string)
| NextRedirect (url : string).

(** A call of [console.log]: [console.log(error, message)] in [handleError],
    [console.log(error)] in [getCurrentUser]. *)
Inductive LogLine :=
| Logged (error : Thrown) (message : option string).

(** What the requests settle to. *)
Record AuthEnv := {
  (* ID.unique(): the n-th identifier handed out *)
  auth_unique : nat → string;
  (* avatarPlaceholderUrl of the constants *)
  avatarPlaceholderUrl : string;
  (* databases.listDocuments on the users collection *)
  listUsers_fault : option Error;
  (* databases.createDocument on the users collection *)
  createUser_fault : option Error;
  (* account.createEmailToken(userId, email): the token's userId *)
  createEmailToken_result : string → string → Outcome string;
  (* account.createSession(accountId, secret) *)
  createSession_result : string → string → Outcome Session;
  (* account.get() of the client carrying a session: the account's $id *)
  account_get_result : string → Outcome string;
  (* account.deleteSession("current") *)
  deleteSession_fault : option Error
}.

(** Everything these actions can change. *)
Record Auth := {
  users : list UserDocument;          (* the users collection, oldest first *)
  cookie : option string;             (* the "appwrite-session" cookie *)
  tokens : list (string * string);    (* email tokens asked for: userId, email *)
  closed : list string;               (* sessions deleted, by session value *)
  lines : list LogLine;               (* console *)
  auth_minted : nat
}.

Definition set_users (l : list UserDocument) (a : Auth) : Auth :=
  {| users := l; cookie := cookie a; tokens := tokens a; closed := closed a;
     lines := lines a; auth_minted := auth_minted a |}.
Definition set_cookie (c : option string) (a : Auth) : Auth :=
  {| users := users a; cookie := c; tokens := tokens a; closed := closed a;
     lines := lines a; auth_minted := auth_minted a |}.
Definition add_token (userId email : string) (a : Auth) : Auth :=
  {| users := users a; cookie := cookie a;
     tokens := tokens a ++ [(userId, email)]; closed := closed a;
     lines := lines a; auth_minted := auth_minted a |}.
Definition add_closed (session : string) (a : Auth) : Auth :=
  {| users := users a; cookie := cookie a; tokens := tokens a;
     closed := closed a ++ [session]; lines := lines a;
     auth_minted := auth_minted a |}.
Definition add_line (l : LogLine) (a : Auth) : Auth :=
  {| users := users a; cookie := cookie a; tokens := tokens a;
     closed := closed a; lines := lines a ++ [l];
     auth_minted := auth_minted a |}.
Definition set_auth_minted (n : nat) (a : Auth) : Auth :=
  {| users := users a; cookie := cookie a; tokens := tokens a;
     closed := closed a; lines := lines a; auth_minted := n |}.

(** *** Promises that may also end in a redirect *)

Inductive Settled (A : Type) :=
| Done (a : A)
| Throw (t : Thrown).
Arguments Done {A} a.
Arguments Throw {A} t.

Definition Flow (A : Type) : Type := Auth → Settled A * Auth.

Definition flow_ret {A} (x : A) : Flow A := λ a, (Done x, a).
Definition flow_throw {A} (t : Thrown) : Flow A := λ a, (Throw t, a).
Definition flow_bind {A B} (m : Flow A) (k : A → Flow B) : Flow B :=
  λ a, match m a with
       | (Done x, a') => k x a'
       | (Throw t, a') => (Throw t, a')
       end.
(** [try { m } catch (error) { h error }] *)
Definition try_catch {A} (m : Flow A) (h : Thrown → Flow A) : Flow A :=
  λ a, match m a with
       | (Done x, a') => (Done x, a')
       | (Throw t, a') => h t a'
       end.
(** [try { m } finally { f }]: [f] runs however [m] ended; what [f] throws
    replaces the outcome of [m]. *)
Definition try_finally {A} (m : Flow A) (f : Flow unit) : Flow A :=
  λ a, match m a with
       | (r, a') =>
           match f a' with
           | (Done _, a'') => (r, a'')
           | (Throw t, a'') => (Throw t, a'')
           end
       end.

#[global] Instance Flow_ret : MRet Flow := @flow_ret.
#[global] Instance Flow_bind : MBind Flow := λ A B k m, flow_bind m k.

(** What an environment's choice means for the caller. *)
Definition settle {A} (o : Outcome A) : Flow A :=
  match o with
  | Resolved x => flow_ret x
  | Rejected e => flow_throw (Err e)
  end.

(** What [getCurrentUser] resolves with: a user document, [null], or
    [undefined]. *)
Inductive MaybeUser :=
| Found (u : UserDocument)
| Null
| Undefined.

(** [!currentUser] is false only for a document. *)
Definition truthy_user (u : MaybeUser) : bool :=
  match u with Found _ => true | _ => false end.

(** The result of [signInUser]: [{ accountId }] or
    [{ accountId: null, error }]. *)
Record SignInResult := {
  si_accountId : option string;
  si_error : option string
}.

Section Services.
Variable env : AuthEnv.

(** [ID.unique()] *)
Definition ID_unique : Flow string :=
  λ a, (Done (auth_unique env (auth_minted a)),
        set_auth_minted (S (auth_minted a)) a).

(** [console.log(...)] *)
Definition console_log (l : LogLine) : Flow unit := λ a, (Done (), add_line l a).

(** [redirect(url)] of next/navigation: it throws, so nothing after it in
    the caller runs. *)
Definition redirect {A} (url : string) : Flow A := flow_throw (NextRedirect url).

(** [(await cookies()).get("appwrite-session")] *)
Definition cookies_get : Flow (option string) := λ a, (Done (cookie a), a).
(** [(await cookies()).set("appwrite-session", value, ...)] *)
Definition cookies_set (value : string) : Flow unit :=
  λ a, (Done (), set_cookie (Some value) a).
(** [(await cookies()).delete("appwrite-session")] *)
Definition cookies_delete : Flow unit := λ a, (Done (), set_cookie None a).

(** [databases.listDocuments] on the users collection with one [equal]
    query on [attribute]: the documents with that value, oldest first. *)
Definition listUsers (attribute : UserDocument → string) (value : string)
  : Flow (list UserDocument) :=
  λ a, match listUsers_fault env with
       | Some e => (Throw (Err e), a)
       | None => (Done (filter (λ u, attribute u = value) (users a)), a)
       end.

(** [databases.createDocument] on the users collection. *)
Definition createUser (documentId fullName email avatar accountId : string)
  : Flow unit :=
  λ a, match createUser_fault env with
       | Some e => (Throw (Err e), a)
       | None =>
           (Done (),
            set_users (users a ++
                       [{| ud_id := documentId; ud_fullName := fullName;
                           ud_email := email; ud_avatar := avatar;
                           ud_accountId := accountId |}]) a)
       end.

(** [account.createEmailToken(userId, email)]: resolves with the token's
    [userId]. *)
Definition account_createEmailToken (userId email : string) : Flow string :=
  λ a, settle (createEmailToken_result env userId email) (add_token userId email a).

(** [account.createSession(accountId, secret)] *)
Definition account_createSession (accountId secret : string) : Flow Session :=
  settle (createSession_result env accountId secret).

(** [account.get()] of a client that carries [session]: the account's [$id]. *)
Definition account_get (session : string) : Flow string :=
  settle (account_get_result env session).

(** [account.deleteSession("current")] of a client that carries [session]. *)
Definition account_deleteSession (session : string) : Flow unit :=
  λ a, match deleteSession_fault env with
       | Some e => (Throw (Err e), a)
       | None => (Done (), add_closed session a)
       end.

(** [createSessionClient()] of lib/appwrite: the client carries the value of
    the session cookie; it throws when the cookie is missing or empty. *)
Definition createSessionClient : Flow string :=
  session ← cookies_get;
  match session with
  | Some value =>
      if Js.truthy_string value then mret value
      else flow_throw (Err "No session")
  | None => flow_throw (Err "No session")
  end.

(** *** The actions *)

Definition getUserByEmail (email : string) : Flow (option UserDocument) :=
  result ← listUsers ud_email email;
  mret (if (0 <? length result)%nat then head result else None).

Definition handleError {A} (error : Thrown) (message : string) : Flow A :=
  console_log (Logged error (Some message));; flow_throw error.

Definition sendEmailOTP (email : string) : Flow string :=
  try_catch
    (userId ← ID_unique;
     account_createEmailToken userId email)
    (λ error, handleError error "Failed to send email OTP").

Definition createAccount (fullName email : string) : Flow string :=
  existingUser ← getUserByEmail email;
  accountId ← sendEmailOTP email;
  if negb (Js.truthy_string accountId)
  then flow_throw (Err "Failed to send an OTP")
  else
    (match existingUser with
     | None =>
         documentId ← ID_unique;
         createUser documentId fullName email (avatarPlaceholderUrl env) accountId
     | Some _ => mret ()
     end);;
    mret (parseStringify accountId).

Definition verifySecret (accountId password : string) : Flow string :=
  try_catch
    (session ← account_createSession accountId password;
     cookies_set (session_secret session);;
     mret (parseStringify (session_id session)))
    (λ error, handleError error "Failed to verify OTP").

Definition getCurrentUser : Flow MaybeUser :=
  try_catch
    (session ← createSessionClient;
     result ← account_get session;
     user ← listUsers ud_accountId result;
     if (length user <=? 0)%nat then mret Null
     else mret (from_option Found Undefined (head user)))
    (λ error, console_log (Logged error None);; mret Undefined).

Definition signOutUser : Flow unit :=
  session ← createSessionClient;
  try_finally
    (try_catch
       (account_deleteSession session;;
        cookies_delete)
       (λ error, handleError error "Failed to sign out user"))
    (redirect "/sign-in").

Definition signInUser (email : string) : Flow SignInResult :=
  try_catch
    (existingUser ← getUserByEmail email;
     match existingUser with
     | Some existingUser =>
         sendEmailOTP email;;
         mret (parseStringify {| si_accountId := Some (ud_accountId existingUser);
                                 si_error := None |})
     | None =>
         mret (parseStringify {| si_accountId := None;
                                 si_error := Some "User not found" |})
     end)
    (λ error, handleError error "Failed to sign in user").

(** The root layout, [app/(root)/layout.tsx]: the page is rendered for the
    current user, or the visitor is sent to the sign-in page. *)
Definition layout : Flow UserDocument :=
  currentUser ← getCurrentUser;
  match currentUser with
  | Found u => mret u
  | _ => redirect "/sign-in"
  end.

End Services.

End UserActions.

(** * Vocabulary of the properties *)

(** The character [c] occurs in [s]. *)
Fixpoint occurs (c : ascii) (s : string) : bool :=
  match s with
  | EmptyString => false
  | String a r => Ascii.eqb a c || occurs c r
  end.

(** Following the spec's words: the sort string cut at its last ["-"], the
    text before it being the field and the text after it the direction. *)
Definition field_and_direction_at_last_dash (sort : string) : string * string :=
  let pieces := Js.split "-" sort in
  (String.concat "-" (removelast pieces), default "" (last pieces)).

(** Following the spec's words: ascending for "asc", descending otherwise. *)
Definition order_query_of_spec (sort : string) : Query :=
  let '(field, direction) := field_and_direction_at_last_dash sort in
  if bool_decide (direction = "asc") then Q_orderAsc field else Q_orderDesc field.

(** Unfold an action down to its requests, leaving the environment's
    choices as the only [match]es. *)
Ltac unfold_action :=
  unfold uploadFile, deleteFile, getFiles, getTotalSpaceUsed, handleError,
    getCurrentUser, account_get, databases_listUsers,
    catch, mbind, mret, Action_bind, Action_ret, bind, ret, throw, ID_unique,
    storage_createFile, storage_deleteFile, databases_createDocument,
    databases_deleteDocument, databases_listDocuments,
    createSessionClient, revalidatePath, console_log, parseStringify in *;
  cbn beta iota zeta in *.

(** Decide the environment's choices one request at a time. *)
Ltac settle env :=
  repeat match goal with
  | H : ?f env = _ |- context [?f env] => rewrite H; cbn beta iota zeta
  | |- context [createFile_fault env] =>
      destruct (createFile_fault env) eqn:?; cbn beta iota zeta
  | |- context [createDocument_fault env] =>
      destruct (createDocument_fault env) eqn:?; cbn beta iota zeta
  | |- context [deleteFile_fault env] =>
      destruct (deleteFile_fault env) eqn:?; cbn beta iota zeta
  | |- context [deleteDocument_fault env] =>
      destruct (deleteDocument_fault env) eqn:?; cbn beta iota zeta
  end.

(** The identifier [uploadFile] mints for the blob when started in [b]. *)
Definition blob_id (env : Env) (b : Backend) : string := unique env (minted b).

(** The requests made by a run that started in [b] and ended in [b']. *)
Definition issued (b b' : Backend) : list Request :=
  drop (length (requests b)) (requests b').

(** An error reaches the caller or the log: it is the value the action
    rejects with, or it was passed to [console.log]. *)
Definition surfaced {A} (e : Error) (r : Outcome A * Backend) : Prop :=
  fst r = Rejected e ∨ ∃ message, LogError e message ∈ console (snd r).

(** A concrete deployment, with the faults left open; its database tells
    upper from lower case when it searches a text. *)
Definition deployment (createFile_f deleteFile_f createDocument_f
    deleteDocument_f : option Error) : Env :=
  {| endpointUrl := "https://cloud.appwrite.io/v1";
     projectId := "project"; bucketId := "bucket";
     unique := λ n, match n with O => "blob-0" | 1%nat => "doc-1" | _ => "id-n" end;
     now := "2024-11-01T10:00:00.000+00:00";
     defaultLimit := 25;
     createFile_fault := createFile_f; deleteFile_fault := deleteFile_f;
     createDocument_fault := createDocument_f;
     deleteDocument_fault := deleteDocument_f;
     listDocuments_fault := None;
     textContains := Js.str_includes;
     sessionCookie := Some "session";
     account_of_session := Resolved "acc1";
     users_of_account :=
       λ _, Resolved [ {| user_id := "u1"; user_email := "u1@x.com" |} ] |}.

Definition empty_backend : Backend :=
  {| bucket := ∅; files := ∅; minted := 0; requests := []; console := [];
     revalidated := [] |}.

(** The user document [getCurrentUser] resolves with under [env], if it
    resolves with one; what it resolves with does not depend on the stores. *)
Definition currentUser (env : Env) : option User :=
  match fst (getCurrentUser env empty_backend) with
  | Resolved user => user
  | Rejected _ => None
  end.

Definition a_txt : UploadFileProps :=
  {| file := {| file_name := "a.txt"; file_bytes := replicate 10 Byte.x61 |};
     ownerId := "u1"; accountId := "acc1"; path := "/documents" |}.

(** Compute [issued] once the requests of the run are spelled out. *)
Ltac issued_simpl :=
  unfold issued; simpl; rewrite <- ?(assoc_L (++)); rewrite ?drop_app_length; simpl.

(** The document [uploadFile] builds for [props] when started in [b]. *)
Definition record_of (env : Env) (props : UploadFileProps) (b : Backend)
  : FileDocument :=
  let name := file_name (file props) in
  {| fd_type := type (getFileType name);
     fd_name := name;
     fd_url := constructFileUrl env (blob_id env b);
     fd_extension := extension (getFileType name);
     fd_size := Z.of_nat (length (file_bytes (file props)));
     fd_owner := ownerId props;
     fd_accountId := accountId props;
     fd_users := [];
     fd_bucketFileId := blob_id env b |}.

(** The first query of [createQueries]: owned by the user, or shared with
    the user's email. *)
Definition access_query (u : User) : Query :=
  Q_or [ Q_equal "owner" [user_id u]; Q_contains "users" [user_email u] ].

(** The record is the user's, or the user's email is on its share list. *)
Definition may_see (u : User) (d : Document) : Prop :=
  fd_owner (doc_data d) = user_id u ∨ user_email u ∈ fd_users (doc_data d).

(** A stored file with its blob, for the runs of [deleteFile] below. *)
Definition stored_backend : Backend :=
  snd (uploadFile (deployment None None None None) a_txt empty_backend).

Definition delete_a_txt : DeleteFileProps :=
  {| fileId := "doc-1"; bucketFileId := "blob-0"; df_path := "/documents" |}.

(** The deployment seen by a second user, "u2". *)
Definition deployment_u2 : Env :=
  {| endpointUrl := "https://cloud.appwrite.io/v1";
     projectId := "project"; bucketId := "bucket";
     unique := λ _, "id-n";
     now := "2024-11-02T10:00:00.000+00:00";
     defaultLimit := 25;
     createFile_fault := None; deleteFile_fault := None;
     createDocument_fault := None; deleteDocument_fault := None;
     listDocuments_fault := None;
     textContains := Js.str_includes;
     sessionCookie := Some "session-2";
     account_of_session := Resolved "acc2";
     users_of_account :=
       λ _, Resolved [ {| user_id := "u2"; user_email := "u2@x.com" |} ] |}.

Definition list_all : GetFilesProps :=
  {| gf_types := None; gf_searchText := None; gf_sort := None; gf_limit := None |}.

(** What one document does to the entry of its own category. *)
Definition bump (Date_valueOf : string → option Z) (u : Usage) (f : Document)
  : Usage :=
  {| u_size := Js.add (u_size u) (fd_size (doc_data f));
     u_latestDate :=
       if negb (Js.truthy_string (u_latestDate u))
          || Date_gt Date_valueOf (doc_updatedAt f) (u_latestDate u)
       then doc_updatedAt f else u_latestDate u |}.

(** The timestamps the database hands out: valid dates, and one string per
    instant. *)
Definition stamp_ok (Date_valueOf : string → option Z) (s : string) : Prop :=
  is_Some (Date_valueOf s).

Definition stamped (Date_valueOf : string → option Z) (l : list Document) : Prop :=
  Forall (λ f, stamp_ok Date_valueOf (doc_updatedAt f)) l ∧
  Forall (λ f, Forall (λ g,
    Date_valueOf (doc_updatedAt f) = Date_valueOf (doc_updatedAt g) →
    doc_updatedAt f = doc_updatedAt g) l) l.

#[global] Instance stamped_dec Date_valueOf l : Decision (stamped Date_valueOf l).
Proof. unfold stamped, stamp_ok. apply _. Defined.

(** An entry's latest date is still empty or is one of the stamps [S]. *)
Definition entry_ok (S : string → Prop) (u : Usage) : Prop :=
  u_latestDate u = "" ∨ S (u_latestDate u).

Definition entries_ok (S : string → Prop) (t : TotalSpace) : Prop :=
  ∀ c, entry_ok S (usage_of t c).

(** [new Date(s).valueOf()] on the timestamps used below: three instants,
    one of them also in its ["Z"] spelling.  The empty string and "n/a" are
    Invalid Dates; so is, here, every string the examples do not use. *)
Definition Date_valueOf_sample (s : string) : option Z :=
  if String.eqb s "2024-10-30T08:30:00.000+00:00" then Some 1730277000000
  else if String.eqb s "2024-11-01T10:00:00.000+00:00" then Some 1730455200000
  else if String.eqb s "2024-11-01T10:00:00.000Z" then Some 1730455200000
  else if String.eqb s "2024-11-02T10:00:00.000+00:00" then Some 1730541600000
  else None.

Definition sample_document (id name updatedAt : string) (size : Z) : Document :=
  {| doc_id := id; doc_createdAt := "2024-10-30T08:30:00.000+00:00";
     doc_updatedAt := updatedAt;
     doc_data :=
       {| fd_type := type (getFileType name); fd_name := name;
          fd_url := ""; fd_extension := extension (getFileType name);
          fd_size := size; fd_owner := "u1"; fd_accountId := "acc1";
          fd_users := []; fd_bucketFileId := id |} |}.

Definition sample_documents : list Document :=
  [ sample_document "d1" "a.txt" "2024-11-01T10:00:00.000+00:00" 10;
    sample_document "d2" "b.pdf" "2024-11-02T10:00:00.000+00:00" 200;
    sample_document "d3" "c.png" "2024-10-30T08:30:00.000+00:00" 3000 ].

(** Two stored files, "d1" and "d2", each with a blob of its own that is
    kept under the identifier of the document. *)
Definition two_files : Backend :=
  let blob (id name : string) :=
    {| bf_id := id; bf_name := name; bf_sizeOriginal := 3;
       bf_bytes := replicate 3 Byte.x61 |} in
  {| bucket := <["d1" := blob "d1" "a.txt"]> (<["d2" := blob "d2" "b.pdf"]> ∅);
     files :=
       <["d1" := sample_document "d1" "a.txt" "2024-11-01T10:00:00.000+00:00" 3]>
         (<["d2" := sample_document "d2" "b.pdf" "2024-11-02T10:00:00.000+00:00" 3]>
            ∅);
     minted := 0; requests := []; console := []; revalidated := [] |}.

(** The bytes of a list of documents, and of those of one category. *)
Definition total_size (l : list Document) : Z :=
  foldr (λ f n, fd_size (doc_data f) + n) 0 l.

Definition of_type (c : FileType) (l : list Document) : list Document :=
  filter (λ f, fd_type (doc_data f) = c) l.

(** The category a type name of the database stands for. *)
Definition FileType_of_string (s : string) : option FileType :=
  if String.eqb s "document" then Some document
  else if String.eqb s "image" then Some image
  else if String.eqb s "video" then Some video
  else if String.eqb s "audio" then Some audio
  else if String.eqb s "other" then Some other
  else None.

(** The bytes [totalSpace] holds for the type names of a listing: the sizes
    of the types, added up from left to right as the code adds numbers. *)
Definition size_of_types (t : TotalSpace) (types : list string) : Z :=
  match (λ s, from_option (λ c, u_size (usage_of t c)) 0 (FileType_of_string s))
          <$> types with
  | [] => 0
  | n :: sizes => foldl Js.add n sizes
  end.

(** Sizes that add up without rounding: none is negative, and their sum is
    at most 2^53, up to which every whole number is a double. *)
Definition safe_sizes (l : list Document) : Prop :=
  Forall (λ f, 0 ≤ fd_size (doc_data f)) l ∧ total_size l ≤ 2 ^ 53.

#[global] Instance safe_sizes_dec l : Decision (safe_sizes l).
Proof. unfold safe_sizes. apply _. Defined.

(** [totalSpace] has room for [n] more bytes: none of its sizes is negative,
    and none exceeds 2^53 once [n] is added to it. *)
Definition room (t : TotalSpace) (n : Z) : Prop :=
  (0 ≤ ts_used t ∧ ts_used t + n ≤ 2 ^ 53) ∧
  ∀ c, 0 ≤ u_size (usage_of t c) ∧ u_size (usage_of t c) + n ≤ 2 ^ 53.

(** The four routes of the dashboard. *)
Definition routes : list string := ["documents"; "images"; "media"; "others"].

(** Extensions that have an icon of their own. *)
Definition own_icon : list string := ["pdf"; "doc"; "docx"; "csv"; "txt"].

(** Extensions the icon table lists as video or audio and [getFileType]
    does not. *)
Definition video_icon_only : list string := ["wmv"; "flv"; "m4v"; "3gp"].
Definition audio_icon_only : list string :=
  ["mpeg"; "aac"; "wma"; "m4a"; "aiff"; "alac"].

(** Case analysis on what the string [e] is, one literal it is compared with
    at a time; [tac] settles the goal once [e] is known. *)
Ltac split_literals e tac :=
  repeat match goal with
  | |- context [String.eqb e ?s] =>
      destruct (String.eqb_spec e s) as [->|?]; [solve [tac]|]
  end.

(** An environment for the updates of the examples. *)
Definition update_ok : UpdateEnv :=
  {| updateDocument_fault := None; document_not_found := "document not found" |}.

(** Unfold [renameFile] and [updateFileUsers] down to the update request. *)
Ltac unfold_update :=
  unfold renameFile, updateFileUsers, databases_updateDocument in *;
  unfold_action.

(** The documents of the files collection, as the database lists them. *)
Definition stored_documents (b : Backend) : list Document :=
  snd <$> map_to_list (files b).

(** The attributes a rename or a change of the share list must not touch. *)
Definition same_file (d d' : Document) : Prop :=
  doc_id d' = doc_id d ∧
  doc_createdAt d' = doc_createdAt d ∧
  fd_type (doc_data d') = fd_type (doc_data d) ∧
  fd_url (doc_data d') = fd_url (doc_data d) ∧
  fd_extension (doc_data d') = fd_extension (doc_data d) ∧
  fd_size (doc_data d') = fd_size (doc_data d) ∧
  fd_owner (doc_data d') = fd_owner (doc_data d) ∧
  fd_accountId (doc_data d') = fd_accountId (doc_data d) ∧
  fd_bucketFileId (doc_data d') = fd_bucketFileId (doc_data d).

(** A run that touched one document of the collection and nothing else. *)
Definition only_changed (k : string) (b b' : Backend) : Prop :=
  (∀ j, j ≠ k → files b' !! j = files b !! j) ∧ bucket b' = bucket b.

(** The deployment seen by a visitor who is not signed in. *)
Definition signed_out : Env :=
  {| endpointUrl := "https://cloud.appwrite.io/v1";
     projectId := "project"; bucketId := "bucket";
     unique := λ _, "id-n";
     now := "2024-11-02T10:00:00.000+00:00";
     defaultLimit := 25;
     createFile_fault := None; deleteFile_fault := None;
     createDocument_fault := None; deleteDocument_fault := None;
     listDocuments_fault := None;
     textContains := Js.str_includes;
     sessionCookie := None;
     account_of_session := Rejected "Unauthorized";
     users_of_account := λ _, Resolved [] |}.

(** The deployment seen with a session cookie that the identity provider
    no longer accepts. *)
Definition stale_session : Env :=
  {| endpointUrl := "https://cloud.appwrite.io/v1";
     projectId := "project"; bucketId := "bucket";
     unique := λ _, "id-n";
     now := "2024-11-02T10:00:00.000+00:00";
     defaultLimit := 25;
     createFile_fault := None; deleteFile_fault := None;
     createDocument_fault := None; deleteDocument_fault := None;
     listDocuments_fault := None;
     textContains := Js.str_includes;
     sessionCookie := Some "stale";
     account_of_session := Rejected "Unauthorized";
     users_of_account := λ _, Resolved [] |}.

(** Every stored document refers to a blob that is in the bucket. *)
Definition linked (b : Backend) : Prop :=
  ∀ k d, files b !! k = Some d →
         is_Some (bucket b !! fd_bucketFileId (doc_data d)).

(** Unfold a user action down to its requests. *)
Ltac unfold_flow :=
  unfold UserActions.layout, UserActions.signInUser, UserActions.signOutUser,
    UserActions.getCurrentUser, UserActions.verifySecret,
    UserActions.createAccount, UserActions.sendEmailOTP,
    UserActions.handleError, UserActions.getUserByEmail,
    UserActions.createSessionClient, UserActions.account_deleteSession,
    UserActions.account_get, UserActions.account_createSession,
    UserActions.account_createEmailToken, UserActions.createUser,
    UserActions.listUsers, UserActions.cookies_delete, UserActions.cookies_set,
    UserActions.cookies_get, UserActions.redirect, UserActions.console_log,
    UserActions.ID_unique, UserActions.try_finally, UserActions.try_catch,
    mbind, mret, UserActions.Flow_bind, UserActions.Flow_ret,
    UserActions.flow_bind, UserActions.flow_ret, UserActions.flow_throw,
    parseStringify in *;
  cbn beta iota zeta in *.

(** The users of the collection that have the email, oldest first. *)
Definition with_email (email : string) (a : UserActions.Auth)
  : list UserActions.UserDocument :=
  filter (λ u, UserActions.ud_email u = email) (UserActions.users a).

(** The users of the collection that belong to the account, oldest first. *)
Definition of_account (accountId : string) (a : UserActions.Auth)
  : list UserActions.UserDocument :=
  filter (λ u, UserActions.ud_accountId u = accountId) (UserActions.users a).

(** The identifier the next [ID.unique()] hands out. *)
Definition next_id (env : UserActions.AuthEnv) (a : UserActions.Auth) : string :=
  UserActions.auth_unique env (UserActions.auth_minted a).

(** An identity provider that accepts the code "123456" for every account,
    and whose sessions carry the account in their secret. *)
Definition provider : UserActions.AuthEnv :=
  {| UserActions.auth_unique :=
       λ n, match n with O => "acc-0" | 1%nat => "user-1" | _ => "id-n" end;
     UserActions.avatarPlaceholderUrl := "/assets/images/avatar.png";
     UserActions.listUsers_fault := None;
     UserActions.createUser_fault := None;
     UserActions.createEmailToken_result := λ userId _, Resolved userId;
     UserActions.createSession_result :=
       λ accountId secret,
         if String.eqb secret "123456"
         then Resolved {| UserActions.session_id := "session-1";
                          UserActions.session_secret := "secret-" ++ accountId |}
         else Rejected "Invalid token";
     UserActions.account_get_result :=
       λ session,
         if String.eqb session "secret-acc-0" then Resolved "acc-0"
         else Rejected "Unauthorized";
     UserActions.deleteSession_fault := None |}.

Definition nobody : UserActions.Auth :=
  {| UserActions.users := []; UserActions.cookie := None;
     UserActions.tokens := []; UserActions.closed := [];
     UserActions.lines := []; UserActions.auth_minted := 0 |}.

(** The state after Alice has signed up. *)
Definition alice_signed_up : UserActions.Auth :=
  snd (UserActions.createAccount provider "Alice" "alice@x.com" nobody).

(** The state after Alice has then entered her code. *)
Definition alice_signed_in : UserActions.Auth :=
  snd (UserActions.verifySecret provider "acc-0" "123456" alice_signed_up).

(** * Properties *)

(** ** Strings *)

Lemma split_not_nil sep s : Js.split sep s ≠ [].
Proof.
  destruct s as [|a r]; simpl; [done|].
  destruct (Ascii.eqb a sep); [done|].
  by destruct (Js.split sep r).
Qed.

Lemma split_without sep s : occurs sep s = false → Js.split sep s = [s].
Proof.
  induction s as [|a r IH]; simpl; [done|].
  intros [Ha Hr]%orb_false_iff.
  by rewrite Ha, (IH Hr).
Qed.

Lemma split_at_first sep s r :
  occurs sep s = false →
  Js.split sep (s ++ String sep r) = s :: Js.split sep r.
Proof.
  induction s as [|a s IH]; simpl.
  - intros _. by rewrite Ascii.eqb_refl.
  - intros [Ha Hs]%orb_false_iff. by rewrite Ha, (IH Hs).
Qed.

Lemma truthy_string_app s c r : Js.truthy_string (s ++ String c r) = true.
Proof. by destruct s. Qed.

(** ** getFileType *)

Lemma getFileType_pdf :
  getFileType "a.pdf" = {| type := document; extension := "pdf" |}.
Proof. reflexivity. Qed.

Lemma getFileType_JPG :
  getFileType "a.JPG" = {| type := image; extension := "jpg" |}.
Proof. reflexivity. Qed.

Lemma getFileType_xyz :
  getFileType "a.xyz" = {| type := other; extension := "xyz" |}.
Proof. reflexivity. Qed.

(** A name that ends in a dot has an empty last piece: this is the case in
    which the extension is left empty. *)
Lemma getFileType_trailing_dot :
  getFileType "a." = {| type := other; extension := "" |}.
Proof. reflexivity. Qed.

(** A name without a dot is its own last piece, so the whole lower-cased
    name is taken for the extension. *)
Lemma extension_of_dotless s :
  occurs "." s = false → extension_of s = Some (Js.toLowerCase s).
Proof.
  intros H. unfold extension_of, Js.pop. by rewrite (split_without _ _ H).
Qed.

(** C4: on the name "noext", which has no extension, [getFileType] does not
    answer (other, ""): the name has no dot, [split] returns it whole, and the
    result is (other, "noext").  The other three values of the claim hold
    ([getFileType_pdf], [getFileType_JPG], [getFileType_xyz]). *)
Theorem getFileType_noext :
  getFileType "noext" = {| type := other; extension := "noext" |} ∧
  getFileType "noext" ≠ {| type := other; extension := "" |}.
Proof. split; [reflexivity | discriminate]. Qed.

(** ** createQueries: the order query *)

Lemma createQueries_order u types searchText sort limit :
  Js.truthy_string sort = true →
  last (createQueries u types searchText sort limit) =
  Some (if bool_decide (Js.split "-" sort !! 1%nat = Some "asc")
        then Q_orderAsc (default "" (Js.split "-" sort !! 0%nat))
        else Q_orderDesc (default "" (Js.split "-" sort !! 0%nat))).
Proof.
  intros Hsort. unfold createQueries. rewrite Hsort. by rewrite last_snoc.
Qed.

(** C6, as stated, fails: "a-b-asc" cut at its last dash has the field "a-b"
    and the direction "asc", but the order query built is descending on
    "a". *)
Lemma createQueries_not_last_dash :
  let u := {| user_id := "u1"; user_email := "u1@x.com" |} in
  order_query_of_spec "a-b-asc" = Q_orderAsc "a-b" ∧
  last (createQueries u [] "" "a-b-asc" None) = Some (Q_orderDesc "a") ∧
  last (createQueries u [] "" "a-b-asc" None) ≠ Some (order_query_of_spec "a-b-asc").
Proof. repeat split; vm_compute; congruence. Qed.

(** C6, amended: for a sort string [field-direction] in which neither part
    contains a dash (so that its only dash is also its last), the builder
    ends the query list with an ascending order on [field] when the direction
    is "asc" and with a descending order on [field] for every other
    direction. *)
Theorem createQueries_sort u types searchText limit field direction :
  occurs "-" field = false →
  occurs "-" direction = false →
  last (createQueries u types searchText (field ++ String "-" direction) limit) =
  Some (if bool_decide (direction = "asc") then Q_orderAsc field
        else Q_orderDesc field).
Proof.
  intros Hf Hd.
  rewrite createQueries_order by apply truthy_string_app.
  rewrite (split_at_first _ _ _ Hf), (split_without _ _ Hd). simpl.
  f_equal. repeat case_bool_decide; congruence.
Qed.

Lemma createQueries_sort_witness :
  let u := {| user_id := "u1"; user_email := "u1@x.com" |} in
  last (createQueries u [] "" "size-asc" None) = Some (Q_orderAsc "size") ∧
  last (createQueries u [] "" "size-weird" None) = Some (Q_orderDesc "size").
Proof.
  split.
  - exact (createQueries_sort {| user_id := "u1"; user_email := "u1@x.com" |}
             [] "" None "size" "asc" eq_refl eq_refl).
  - exact (createQueries_sort {| user_id := "u1"; user_email := "u1@x.com" |}
             [] "" None "size" "weird" eq_refl eq_refl).
Defined.

(** ** uploadFile *)

(** When the document insert fails, the blob delete is requested, whatever
    it answers. *)
Lemma uploadFile_compensates env props b e :
  createFile_fault env = None →
  createDocument_fault env = Some e →
  ReqDeleteFile (blob_id env b) ∈ issued b (snd (uploadFile env props b)).
Proof.
  intros Hcf Hcd. unfold_action.
  settle env; issued_simpl; rewrite !elem_of_cons; auto.
Qed.

(** When the document insert fails and the compensating delete succeeds, the
    insert's error is the one thrown. *)
Lemma uploadFile_rethrows env props b e :
  createFile_fault env = None →
  createDocument_fault env = Some e →
  deleteFile_fault env = None →
  fst (uploadFile env props b) = Rejected e ∧
  bucket (snd (uploadFile env props b)) !! blob_id env b = None.
Proof.
  intros Hcf Hcd Hdf. unfold_action. settle env. simpl. split; [done|].
  apply lookup_delete_eq.
Qed.

(** C1: with the blob stored, the insert rejected with "document rejected"
    and the compensating delete rejected with "storage unreachable", the
    delete is requested, but what [uploadFile] throws and logs is the delete's
    error; the insert's error reaches neither the caller nor the log. *)
Theorem uploadFile_masks_insert_error :
  let env := deployment None (Some "storage unreachable")
                        (Some "document rejected") None in
  let r := uploadFile env a_txt empty_backend in
  ReqDeleteFile "blob-0" ∈ issued empty_backend (snd r) ∧
  fst r = Rejected "storage unreachable" ∧
  console (snd r) = [LogError "storage unreachable" "Failed to upload file"] ∧
  ¬ surfaced "document rejected" r.
Proof.
  cbn zeta. repeat split.
  - exact (uploadFile_compensates
             (deployment None (Some "storage unreachable")
                         (Some "document rejected") None)
             a_txt empty_backend "document rejected" eq_refl eq_refl).
  - intros [H|[message H]]; [vm_compute in H; discriminate|].
    change (LogError "document rejected" message
              ∈ [LogError "storage unreachable" "Failed to upload file"]) in H.
    apply list_elem_of_singleton in H. discriminate.
Qed.

(** An upload whose document insert fails never resolves: it rejects, and
    the error it rejects with is logged under "Failed to upload file".  When
    the compensating delete resolved, that error is the insert's and the blob
    is no longer in the bucket. *)
Lemma uploadFile_never_silent env props b e :
  createFile_fault env = None →
  createDocument_fault env = Some e →
  ∃ thrown,
    fst (uploadFile env props b) = Rejected thrown ∧
    last (console (snd (uploadFile env props b))) =
      Some (LogError thrown "Failed to upload file") ∧
    (deleteFile_fault env = None →
     thrown = e ∧ bucket (snd (uploadFile env props b)) !! blob_id env b = None).
Proof.
  intros Hcf Hcd. unfold_action. settle env; simpl.
  - eexists. rewrite last_snoc. split_and!; [done..|]. intros [=].
  - eexists. rewrite last_snoc. split_and!; [done..|]. intros _.
    split; [done|]. apply lookup_delete_eq.
Qed.

(** C2: when the insert and the compensating delete both reject,
    [uploadFile] rejects with the delete's error and adds one line to the
    log, which holds the delete's error too.  The insert's error is
    surfaced nowhere, nothing is emitted for the blob apart from that one
    error, and the blob stays in the bucket while the files collection is as
    before. *)
Theorem uploadFile_compensation_fails env props b e_insert e_delete :
  createFile_fault env = None →
  createDocument_fault env = Some e_insert →
  deleteFile_fault env = Some e_delete →
  fst (uploadFile env props b) = Rejected e_delete ∧
  console (snd (uploadFile env props b)) =
    (console b ++ [LogError e_delete "Failed to upload file"])%list ∧
  bf_bytes <$> bucket (snd (uploadFile env props b)) !! blob_id env b
    = Some (file_bytes (file props)) ∧
  files (snd (uploadFile env props b)) = files b ∧
  (e_insert ≠ e_delete →
   fst (uploadFile env props b) ≠ Rejected e_insert ∧
   ∀ message,
     LogError e_insert message
       ∉ drop (length (console b)) (console (snd (uploadFile env props b)))).
Proof.
  intros Hcf Hcd Hdf. unfold_action. settle env. simpl.
  split_and!; [done|done| |done|].
  - unfold blob_id. by rewrite lookup_insert_eq.
  - intros Hne. split; [congruence|]. intros message.
    rewrite drop_app_length. intros H%list_elem_of_singleton. congruence.
Qed.

Lemma uploadFile_compensation_fails_witness :
  let env := deployment None (Some "storage unreachable")
                        (Some "document rejected") None in
  fst (uploadFile env a_txt empty_backend) = Rejected "storage unreachable" ∧
  console (snd (uploadFile env a_txt empty_backend)) =
    [LogError "storage unreachable" "Failed to upload file"] ∧
  is_Some (bucket (snd (uploadFile env a_txt empty_backend)) !! "blob-0") ∧
  fst (uploadFile env a_txt empty_backend) ≠ Rejected "document rejected".
Proof.
  destruct (uploadFile_compensation_fails
              (deployment None (Some "storage unreachable")
                          (Some "document rejected") None)
              a_txt empty_backend "document rejected" "storage unreachable"
              eq_refl eq_refl eq_refl) as (Hr & Hc & Hb & _ & Hne).
  split; [exact Hr|]. split; [exact Hc|]. split.
  - change (blob_id _ empty_backend) with "blob-0" in Hb.
    destruct (bucket _ !! "blob-0"); [by eexists|discriminate Hb].
  - apply Hne. discriminate.
Defined.

(** What a run of [uploadFile] ends in: it rejects and the files collection
    is as before, or it resolves with the stored document, every attribute
    of which is filled in from the arguments and the stored blob. *)
Lemma uploadFile_cases env props b :
  (∃ e, fst (uploadFile env props b) = Rejected e ∧
        files (snd (uploadFile env props b)) = files b) ∨
  (∃ doc, fst (uploadFile env props b) = Resolved doc ∧
          doc_data doc = record_of env props b ∧
          files (snd (uploadFile env props b)) !! doc_id doc = Some doc ∧
          bf_bytes <$> bucket (snd (uploadFile env props b)) !! blob_id env b
            = Some (file_bytes (file props))).
Proof.
  unfold_action. settle env; simpl; eauto.
  right. eexists. split_and!; [done|done|..].
  - apply lookup_insert_eq.
  - unfold blob_id. by rewrite lookup_insert_eq.
Qed.

(** C3: every call of [uploadFile] either rejects, leaving no document
    behind, or resolves with a stored document all of whose attributes are
    filled in; and a successful upload of a 10-byte file "a.txt" for owner
    "u1" returns type document, extension "txt", size 10 and owner "u1". *)
Theorem uploadFile_complete_or_error :
  (∀ env props b,
     (∃ e, fst (uploadFile env props b) = Rejected e ∧
           files (snd (uploadFile env props b)) = files b) ∨
     (∃ doc, fst (uploadFile env props b) = Resolved doc ∧
             doc_data doc = record_of env props b ∧
             files (snd (uploadFile env props b)) !! doc_id doc = Some doc ∧
             bf_bytes <$> bucket (snd (uploadFile env props b)) !! blob_id env b
               = Some (file_bytes (file props)))) ∧
  (∀ env bytes account route b doc b',
     length bytes = 10%nat →
     uploadFile env {| file := {| file_name := "a.txt"; file_bytes := bytes |};
                       ownerId := "u1"; accountId := account; path := route |} b
       = (Resolved doc, b') →
     fd_type (doc_data doc) = document ∧
     fd_extension (doc_data doc) = "txt" ∧
     fd_size (doc_data doc) = 10 ∧
     fd_owner (doc_data doc) = "u1").
Proof.
  split; [apply uploadFile_cases|].
  intros env bytes account route b doc b' Hlen Hrun.
  destruct (uploadFile_cases env
              {| file := {| file_name := "a.txt"; file_bytes := bytes |};
                 ownerId := "u1"; accountId := account; path := route |} b)
    as [(e & He & _)|(doc' & Hd & Hdata & _)];
    rewrite Hrun in *; simpl in *; [discriminate|].
  injection Hd as <-. rewrite Hdata. unfold record_of. simpl.
  rewrite Hlen. done.
Qed.

Lemma uploadFile_complete_or_error_witness :
  ∃ doc b',
    uploadFile (deployment None None None None) a_txt empty_backend
      = (Resolved doc, b') ∧
    fd_type (doc_data doc) = document ∧
    fd_extension (doc_data doc) = "txt" ∧
    fd_size (doc_data doc) = 10 ∧
    fd_owner (doc_data doc) = "u1".
Proof.
  eexists _, _. split; [vm_compute; reflexivity|].
  eapply (proj2 uploadFile_complete_or_error (deployment None None None None)
            (replicate 10 Byte.x61) "acc1" "/documents" empty_backend);
    [reflexivity | vm_compute; reflexivity].
Defined.

(** ** The access predicate *)

Lemma includes_elem_of l s : Js.includes l s = true ↔ s ∈ l.
Proof.
  unfold Js.includes. rewrite existsb_exists. split.
  - intros (x & Hx%list_elem_of_In & ->%String.eqb_eq). done.
  - intros H. exists s. rewrite <- list_elem_of_In, String.eqb_refl. done.
Qed.

Lemma passes_access_query contains u d :
  passes contains d (access_query u) = true ↔ may_see u d.
Proof.
  unfold may_see. cbn. rewrite !orb_false_r, orb_true_iff.
  rewrite includes_elem_of, String.eqb_eq. done.
Qed.

Lemma createQueries_head u types searchText sort limit :
  ∃ rest, createQueries u types searchText sort limit = access_query u :: rest.
Proof.
  unfold createQueries, access_query.
  destruct (0 <? length types)%nat, (Js.truthy_string searchText),
    limit as [n|], (Js.truthy_string sort);
    try destruct (negb (n =? 0)); simpl; eauto.
Qed.

Lemma select_passes contains default queries stored d :
  d ∈ documents (select contains default queries stored) →
  d ∈ stored ∧ passes_all contains queries d = true.
Proof.
  unfold select. simpl. intros Hd%subseteq_take.
  rewrite merge_sort_Permutation in Hd.
  by apply list_elem_of_filter in Hd as [? ?].
Qed.

(** C9: the document a successful upload returns, which is the one stored
    and the one sent in the insert request, has an empty [users] list; a
    user other than the owner does not pass the access predicate on it. *)
Theorem uploadFile_shared_with_nobody env props b doc b' :
  uploadFile env props b = (Resolved doc, b') →
  fd_users (doc_data doc) = [] ∧
  files b' !! doc_id doc = Some doc ∧
  (∀ documentId data,
     ReqCreateDocument documentId data ∈ issued b b' → fd_users data = []) ∧
  (∀ u, user_id u ≠ ownerId props →
        passes (textContains env) doc (access_query u) = false).
Proof.
  intros Hrun.
  assert (Hreq : ∀ documentId data,
    ReqCreateDocument documentId data ∈ issued b (snd (uploadFile env props b)) →
    fd_users data = []).
  { clear. intros documentId data. unfold_action.
    settle env; issued_simpl; intros H;
      repeat (apply elem_of_cons in H as [H|H]; [try discriminate|]);
      try (by apply elem_of_nil in H); by injection H as -> ->. }
  destruct (uploadFile_cases env props b)
    as [(e & He & _)|(doc' & Hd & Hdata & Hstored & _)];
    rewrite Hrun in Hreq, Hd, Hstored || rewrite Hrun in He;
    simpl in Hreq, Hd, Hstored || simpl in He; [discriminate|].
  injection Hd as <-. split_and!; [by rewrite Hdata|done|done|].
  intros u Hu. apply not_true_is_false.
  rewrite passes_access_query. unfold may_see. rewrite Hdata. simpl.
  intros [H|H]; [by apply Hu | by apply elem_of_nil in H].
Qed.

Lemma uploadFile_shared_with_nobody_witness :
  ∃ doc, fst (uploadFile (deployment None None None None) a_txt empty_backend)
           = Resolved doc ∧
         fd_users (doc_data doc) = [] ∧
         passes Js.str_includes doc
           (access_query {| user_id := "u2"; user_email := "u2@x.com" |}) = false.
Proof.
  eexists. split; [vm_compute; reflexivity|].
  destruct (uploadFile_shared_with_nobody (deployment None None None None)
              a_txt empty_backend _ _ eq_refl) as (Hu & _ & _ & Hp).
  split; [exact Hu|]. apply Hp. discriminate.
Defined.

(** ** deleteFile *)

(** The requests of a run of [deleteFile]: the document delete, and after
    it, only if it resolved, the blob delete. *)
Lemma deleteFile_requests env props b :
  issued b (snd (deleteFile env props b)) =
  ReqDeleteDocument (fileId props) ::
  match deleteDocument_fault env with
  | None => [ReqDeleteFile (bucketFileId props)]
  | Some _ => []
  end.
Proof. unfold_action. settle env; by issued_simpl. Qed.

(** C8, as stated, fails: [deleteFile] deletes the blob its caller names,
    which it does not compare with the blob of the document.  Called for the
    document "d1" with the blob of "d2", it resolves with success; the blob
    of the deleted document is still in the bucket, and the document "d2" is
    left without its blob. *)
Lemma deleteFile_mismatched_ids :
  let props := {| fileId := "d1"; bucketFileId := "d2"; df_path := "/" |} in
  let r := deleteFile (deployment None None None None) props two_files in
  (∃ d, files two_files !! "d1" = Some d ∧ fd_bucketFileId (doc_data d) = "d1") ∧
  fst r = Resolved {| status := "success" |} ∧
  files (snd r) !! "d1" = None ∧
  is_Some (bucket (snd r) !! "d1") ∧
  (∃ d, files (snd r) !! "d2" = Some d ∧
        fd_bucketFileId (doc_data d) = "d2" ∧
        bucket (snd r) !! "d2" = None).
Proof.
  cbn zeta. split_and!.
  - eexists. split; vm_compute; reflexivity.
  - vm_compute. reflexivity.
  - vm_compute. reflexivity.
  - vm_compute. eauto.
  - eexists. split_and!; vm_compute; reflexivity.
Qed.

(** C8, amended: when [deleteFile] is called for a stored document with the
    blob identifier that this document holds, and resolves, it resolves with
    success, and the document and its blob are gone: the files collection is
    what it was without the document, and the bucket is what it was without
    the document's blob. *)
Theorem deleteFile_removes_both env props b d r b' :
  files b !! fileId props = Some d →
  fd_bucketFileId (doc_data d) = bucketFileId props →
  deleteFile env props b = (Resolved r, b') →
  r = {| status := "success" |} ∧
  files b' !! fileId props = None ∧
  bucket b' !! fd_bucketFileId (doc_data d) = None ∧
  files b' = delete (fileId props) (files b) ∧
  bucket b' = delete (fd_bucketFileId (doc_data d)) (bucket b).
Proof.
  intros _ ->. unfold_action. settle env; intros [= <- <-]; simpl.
  split_and!; [done|apply lookup_delete_eq..|done|done].
Qed.

Lemma deleteFile_removes_both_witness :
  is_Some (bucket stored_backend !! "blob-0") ∧
  ∃ d b', files stored_backend !! "doc-1" = Some d ∧
          fd_bucketFileId (doc_data d) = "blob-0" ∧
          deleteFile (deployment None None None None) delete_a_txt stored_backend
            = (Resolved {| status := "success" |}, b') ∧
          files b' !! "doc-1" = None ∧ bucket b' !! "blob-0" = None.
Proof.
  split; [vm_compute; eauto|].
  eexists _, _. split; [vm_compute; reflexivity|].
  split; [reflexivity|]. split; [vm_compute; reflexivity|].
  destruct (deleteFile_removes_both (deployment None None None None)
              delete_a_txt stored_backend _ _ _ eq_refl eq_refl eq_refl)
    as (_ & Hf & Hb & _).
  split; [exact Hf | exact Hb].
Defined.

(** C10: the blob delete is requested only after the document delete has
    resolved; when the document delete rejects, [deleteFile] rejects with that
    error, no blob delete is requested and the bucket is unchanged. *)
Theorem deleteFile_keeps_blob :
  (∀ env props b,
     issued b (snd (deleteFile env props b)) =
     ReqDeleteDocument (fileId props) ::
     match deleteDocument_fault env with
     | None => [ReqDeleteFile (bucketFileId props)]
     | Some _ => []
     end) ∧
  (∀ env props b e,
     deleteDocument_fault env = Some e →
     fst (deleteFile env props b) = Rejected e ∧
     issued b (snd (deleteFile env props b)) = [ReqDeleteDocument (fileId props)] ∧
     bucket (snd (deleteFile env props b)) = bucket b ∧
     files (snd (deleteFile env props b)) = files b).
Proof.
  split; [apply deleteFile_requests|].
  intros env props b e He. split_and!.
  - unfold_action. by settle env.
  - by rewrite deleteFile_requests, He.
  - unfold_action. by settle env.
  - unfold_action. by settle env.
Qed.

Lemma deleteFile_keeps_blob_witness :
  let env := deployment None None None (Some "document not found") in
  fst (deleteFile env delete_a_txt stored_backend) = Rejected "document not found" ∧
  issued stored_backend (snd (deleteFile env delete_a_txt stored_backend))
    = [ReqDeleteDocument "doc-1"] ∧
  bucket (snd (deleteFile env delete_a_txt stored_backend)) = bucket stored_backend ∧
  files (snd (deleteFile env delete_a_txt stored_backend)) = files stored_backend.
Proof.
  exact (proj2 deleteFile_keeps_blob
           (deployment None None None (Some "document not found"))
           delete_a_txt stored_backend "document not found" eq_refl).
Defined.

(** ** getCurrentUser, as the file actions call it *)

(** [getCurrentUser] never rejects, and what it resolves with is decided by
    the environment alone. *)
Lemma getCurrentUser_value env b :
  fst (getCurrentUser env b) = Resolved (currentUser env).
Proof.
  unfold currentUser. unfold_action.
  destruct (sessionCookie env) as [value|]; [|done].
  destruct (Js.truthy_string value); [|done].
  destruct (account_of_session env); [|done].
  by destruct (users_of_account env _) as [[|u l]|].
Qed.

(** It asks the identity provider and the users collection, and logs; it
    leaves the bucket, the files collection and the revalidated paths as
    they are, and asks nothing of the files collection. *)
Lemma getCurrentUser_stores env b :
  files (snd (getCurrentUser env b)) = files b ∧
  bucket (snd (getCurrentUser env b)) = bucket b ∧
  revalidated (snd (getCurrentUser env b)) = revalidated b ∧
  ∀ queries, ReqListDocuments queries ∉ issued b (snd (getCurrentUser env b)).
Proof.
  unfold_action.
  destruct (sessionCookie env) as [value|]; simpl.
  2:{ split_and!; try done. intros q. unfold issued. simpl.
      rewrite drop_all. apply not_elem_of_nil. }
  destruct (Js.truthy_string value); simpl.
  2:{ split_and!; try done. intros q. unfold issued. simpl.
      rewrite drop_all. apply not_elem_of_nil. }
  destruct (account_of_session env); simpl.
  2:{ split_and!; try done. intros q. issued_simpl.
      by intros [=]%list_elem_of_singleton. }
  destruct (users_of_account env _) as [[|u l]|]; simpl;
    (split_and!; try done; intros q; issued_simpl;
     rewrite !elem_of_cons; intros [[=]|[[=]|[]%elem_of_nil]]).
Qed.

(** Without a session cookie it makes no request at all: it logs "No
    session" and resolves with [undefined]. *)
Lemma getCurrentUser_no_session env b :
  sessionCookie env = None ∨ sessionCookie env = Some "" →
  getCurrentUser env b = (Resolved None, add_console (LogValue "No session") b).
Proof. intros [H|H]; unfold_action; by rewrite H. Qed.

(** ** getFiles: every listing is scoped to the caller *)

Lemma createQueries_access u types searchText sort limit :
  access_query u ∈ createQueries u types searchText sort limit.
Proof.
  destruct (createQueries_head u types searchText sort limit) as [rest ->].
  apply elem_of_cons. by left.
Qed.

(** A run of [getFiles], by what [getCurrentUser] resolved with and by the
    answer of the database. *)
Lemma getFiles_run env props b :
  getFiles env props b =
  let b1 := snd (getCurrentUser env b) in
  match currentUser env with
  | None =>
      (Rejected "User not found",
       add_console (LogError "User not found" "Failed to get files") b1)
  | Some u =>
      let queries :=
        createQueries u (default [] (gf_types props))
          (default "" (gf_searchText props))
          (default "$createdAt-desc" (gf_sort props)) (gf_limit props) in
      let b2 := add_request (ReqListDocuments queries) b1 in
      match listDocuments_fault env with
      | Some e => (Rejected e, add_console (LogError e "Failed to get files") b2)
      | None =>
          let listed := select (textContains env) (defaultLimit env) queries
                          (stored_documents b) in
          (Resolved listed, add_console (LogFiles listed) b2)
      end
  end.
Proof.
  unfold getFiles, catch, mbind, Action_bind, bind.
  pose proof (getCurrentUser_value env b) as Hv.
  destruct (getCurrentUser_stores env b) as (Hf & _).
  destruct (getCurrentUser env b) as [o b1]. simpl in Hv, Hf. subst o.
  cbn [snd]. cbv zeta.
  destruct (currentUser env) as [u|]; [|done].
  unfold databases_listDocuments, handleError, console_log, throw, mbind, mret,
    Action_bind, Action_ret, bind, ret, parseStringify, stored_documents.
  cbn beta iota. destruct (listDocuments_fault env); [done|].
  cbn [files add_request]. by rewrite Hf.
Qed.

Lemma getFiles_documents env props b u r b' :
  currentUser env = Some u →
  getFiles env props b = (Resolved r, b') →
  ∀ d, d ∈ documents r → (∃ k, files b !! k = Some d) ∧ may_see u d.
Proof.
  intros Hu. rewrite getFiles_run, Hu. cbv zeta.
  destruct (listDocuments_fault env); [discriminate|].
  intros [= <- <-] d [Hd Hpass]%select_passes. split.
  - apply list_elem_of_fmap in Hd as ([k d'] & -> & Hk%elem_of_map_to_list).
    simpl in Hk. simpl. eauto.
  - apply (passes_access_query (textContains env)).
    unfold passes_all in Hpass.
    rewrite forallb_forall in Hpass. apply Hpass, list_elem_of_In.
    apply createQueries_access.
Qed.

(** C5: whatever the arguments, the query list built by [createQueries]
    contains the access predicate (owner equal to the user's id, or the user's
    email among [users]); every document [getFiles] returns is owned by the
    caller or shared with the caller, and when the collection holds only
    documents of other users that are not shared with the caller, the listing
    is empty. *)
Theorem getFiles_scoped_to_user :
  (∀ u types searchText sort limit,
     access_query u ∈ createQueries u types searchText sort limit) ∧
  (∀ env props b u r b',
     currentUser env = Some u →
     getFiles env props b = (Resolved r, b') →
     ∀ d, d ∈ documents r → may_see u d) ∧
  (∀ env props b u r b',
     currentUser env = Some u →
     (∀ k d, files b !! k = Some d → ¬ may_see u d) →
     getFiles env props b = (Resolved r, b') →
     documents r = []).
Proof.
  split_and!.
  - apply createQueries_access.
  - intros env props b u r b' Hu Hrun d Hd.
    by destruct (getFiles_documents env props b u r b' Hu Hrun d Hd).
  - intros env props b u r b' Hu Hprivate Hrun.
    destruct (documents r) as [|d l] eqn:Hdocs; [done|].
    destruct (getFiles_documents env props b u r b' Hu Hrun d)
      as [[k Hk] Hsee]; [rewrite Hdocs; apply elem_of_cons; by left|].
    by destruct (Hprivate k d Hk).
Qed.

Lemma getFiles_scoped_to_user_witness :
  (∃ d, files stored_backend !! "doc-1" = Some d ∧ fd_owner (doc_data d) = "u1") ∧
  ∃ r b', getFiles deployment_u2 list_all stored_backend = (Resolved r, b') ∧
          documents r = [].
Proof.
  split; [eexists; split; vm_compute; reflexivity|].
  eexists _, _. split; [vm_compute; reflexivity|].
  eapply (proj2 (proj2 getFiles_scoped_to_user) deployment_u2 list_all
            stored_backend {| user_id := "u2"; user_email := "u2@x.com" |});
    [reflexivity| |vm_compute; reflexivity].
  intros k d Hk.
  assert (Hd : d ∈ snd <$> map_to_list (files stored_backend)).
  { apply list_elem_of_fmap. exists (k, d). split; [done|].
    by apply elem_of_map_to_list. }
  vm_compute in Hd. apply list_elem_of_In in Hd as [<-|[]].
  unfold may_see. simpl. intros [H|H]; [discriminate|].
  by apply elem_of_nil in H.
Defined.

(** ** Sums of sizes *)

(** Up to 2^53 every whole number is a double, and [+] is exact. *)
Lemma round_exact x : Z.abs x ≤ 2 ^ 53 → Js.round x = x.
Proof.
  intros H. unfold Js.round. cbv zeta.
  destruct (Z.ltb_spec (Z.abs x) (2 ^ 53)) as [|Hge]; [done|].
  change (2 ^ 53) with 9007199254740992 in H, Hge.
  assert (Hx : x = 9007199254740992 ∨ x = - 9007199254740992) by lia.
  destruct Hx as [-> | ->]; reflexivity.
Qed.

Lemma add_exact a b : 0 ≤ a → 0 ≤ b → a + b ≤ 2 ^ 53 → Js.add a b = a + b.
Proof. intros Ha Hb Hab. apply round_exact. lia. Qed.

Lemma total_size_app l l' : total_size (l ++ l') = total_size l + total_size l'.
Proof. induction l; simpl; lia. Qed.

Lemma total_size_perm l l' : l ≡ₚ l' → total_size l = total_size l'.
Proof. induction 1; simpl; lia. Qed.

Lemma total_size_nonneg l :
  Forall (λ f, 0 ≤ fd_size (doc_data f)) l → 0 ≤ total_size l.
Proof. induction 1; simpl; lia. Qed.

(** ** getTotalSpaceUsed: the pass over the documents *)

Section Summarize.
Variable Date_valueOf : string → option Z.
(** [new Date("")] is an Invalid Date. *)
Hypothesis Date_empty : Date_valueOf "" = None.

Lemma stamp_ok_truthy s : stamp_ok Date_valueOf s → Js.truthy_string s = true.
Proof.
  destruct s; [|done]. unfold stamp_ok. rewrite Date_empty.
  by intros [? ?].
Qed.

Lemma addFile_fields t f :
  addFile Date_valueOf t f =
  let c := fd_type (doc_data f) in
  let bump := bump Date_valueOf in
  {| ts_image := if decide (c = image) then bump (ts_image t) f else ts_image t;
     ts_document :=
       if decide (c = document) then bump (ts_document t) f else ts_document t;
     ts_video := if decide (c = video) then bump (ts_video t) f else ts_video t;
     ts_audio := if decide (c = audio) then bump (ts_audio t) f else ts_audio t;
     ts_other := if decide (c = other) then bump (ts_other t) f else ts_other t;
     ts_used := Js.add (ts_used t) (fd_size (doc_data f));
     ts_all := ts_all t |}.
Proof.
  unfold addFile, bump. destruct t as [[] [] [] [] [] ? ?].
  destruct (fd_type (doc_data f)); simpl;
    match goal with |- context [negb ?x || ?y] => destruct (negb x || y) end;
    reflexivity.
Qed.

Lemma usage_of_addFile t f c :
  usage_of (addFile Date_valueOf t f) c =
  if decide (fd_type (doc_data f) = c) then bump Date_valueOf (usage_of t c) f
  else usage_of t c.
Proof.
  rewrite addFile_fields. cbn zeta.
  destruct c, (fd_type (doc_data f)); reflexivity.
Qed.

(** One more document, when there is room for it: the sizes are the exact
    sums, and there is room for the rest. *)
Lemma addFile_room t f n :
  room t (fd_size (doc_data f) + n) → 0 ≤ fd_size (doc_data f) → 0 ≤ n →
  ts_used (addFile Date_valueOf t f) = ts_used t + fd_size (doc_data f) ∧
  (∀ c, u_size (usage_of (addFile Date_valueOf t f) c) =
        u_size (usage_of t c) +
        (if decide (fd_type (doc_data f) = c) then fd_size (doc_data f) else 0)) ∧
  room (addFile Date_valueOf t f) n.
Proof.
  intros [[Hu0 Hu] Hc] Hf Hn.
  assert (Hused : ts_used (addFile Date_valueOf t f)
                  = ts_used t + fd_size (doc_data f)).
  { rewrite addFile_fields. simpl. apply add_exact; lia. }
  assert (Hsize : ∀ c, u_size (usage_of (addFile Date_valueOf t f) c) =
            u_size (usage_of t c) +
            (if decide (fd_type (doc_data f) = c) then fd_size (doc_data f) else 0)).
  { intros c. destruct (Hc c) as [Hc0 Hc1]. rewrite usage_of_addFile.
    case_decide; simpl; [apply add_exact|]; lia. }
  split_and!; [done|done|]. split.
  - rewrite Hused. lia.
  - intros c. destruct (Hc c) as [Hc0 Hc1]. rewrite Hsize. case_decide; lia.
Qed.

Lemma room_less t n m : room t n → 0 ≤ m → m ≤ n → room t m.
Proof.
  intros [[Hu0 Hu] Hc] Hm Hmn. split; [lia|].
  intros c. destruct (Hc c). lia.
Qed.

Section Stamps.
(** A set of timestamps handed out by the database. *)
Variable S : string → Prop.
Hypothesis S_ok : ∀ s, S s → stamp_ok Date_valueOf s.
Hypothesis S_canonical :
  ∀ s s', S s → S s' → Date_valueOf s = Date_valueOf s' → s = s'.

Lemma bump_ok u f :
  entry_ok S u → S (doc_updatedAt f) → entry_ok S (bump Date_valueOf u f).
Proof.
  intros Hu Hf. unfold entry_ok, bump. simpl.
  destruct (negb _ || _); [by right|done].
Qed.

Lemma addFile_ok t f :
  entries_ok S t → S (doc_updatedAt f) → entries_ok S (addFile Date_valueOf t f).
Proof.
  intros Ht Hf c. rewrite usage_of_addFile.
  case_decide; [by apply bump_ok|done].
Qed.

Lemma bump_comm u f g :
  entry_ok S u → S (doc_updatedAt f) → S (doc_updatedAt g) →
  0 ≤ u_size u → 0 ≤ fd_size (doc_data f) → 0 ≤ fd_size (doc_data g) →
  u_size u + (fd_size (doc_data f) + fd_size (doc_data g)) ≤ 2 ^ 53 →
  bump Date_valueOf (bump Date_valueOf u f) g =
  bump Date_valueOf (bump Date_valueOf u g) f.
Proof.
  intros Hu Hf Hg Hu0 Hf0 Hg0 Hsum. unfold bump. simpl. f_equal.
  { rewrite (add_exact (u_size u) (fd_size (doc_data f))) by lia.
    rewrite (add_exact (u_size u) (fd_size (doc_data g))) by lia.
    rewrite !add_exact by lia. lia. }
  pose proof (S_canonical _ _ Hf Hg) as Hfg.
  pose proof (stamp_ok_truthy _ (S_ok _ Hf)) as Htf.
  pose proof (stamp_ok_truthy _ (S_ok _ Hg)) as Htg.
  destruct (S_ok _ Hf) as [x Hx], (S_ok _ Hg) as [y Hy].
  unfold Date_gt. rewrite Hx, Hy in *.
  destruct Hu as [->|Hu]; simpl.
  - rewrite Htf, Htg, Hx, Hy. simpl.
    destruct (Z.ltb_spec x y), (Z.ltb_spec y x); try done; try lia.
    apply Hfg. f_equal. lia.
  - pose proof (S_canonical _ _ Hf Hu) as Hfu.
    pose proof (S_canonical _ _ Hg Hu) as Hgu.
    pose proof (stamp_ok_truthy _ (S_ok _ Hu)) as Htu.
    destruct (S_ok _ Hu) as [z Hz]. rewrite Hz in *.
    rewrite Htu. simpl.
    destruct (Z.ltb_spec z x), (Z.ltb_spec z y); simpl;
      rewrite ?Htf, ?Htg, ?Htu, ?Hx, ?Hy, ?Hz; simpl;
      destruct (Z.ltb_spec x y), (Z.ltb_spec y x); try done; try lia;
      rewrite ?Hx, ?Hy, ?Hz; simpl;
      repeat match goal with
      | |- context [?a <? ?b] => destruct (Z.ltb_spec a b)
      end; try done; try lia.
    apply Hfg. f_equal. lia.
Qed.

Lemma addFile_comm t f g :
  entries_ok S t → S (doc_updatedAt f) → S (doc_updatedAt g) →
  0 ≤ fd_size (doc_data f) → 0 ≤ fd_size (doc_data g) →
  room t (fd_size (doc_data f) + fd_size (doc_data g)) →
  addFile Date_valueOf (addFile Date_valueOf t f) g =
  addFile Date_valueOf (addFile Date_valueOf t g) f.
Proof.
  intros Ht Hf Hg Hf0 Hg0 [[Hu0 Hu] Hc]. rewrite !addFile_fields. cbn zeta. simpl.
  pose proof (Ht image). pose proof (Ht document). pose proof (Ht video).
  pose proof (Ht audio). pose proof (Ht other).
  destruct (Hc image), (Hc document), (Hc video), (Hc audio), (Hc other).
  simpl in *.
  f_equal; repeat case_decide; try done; try (by apply bump_comm).
  rewrite (add_exact (ts_used t) (fd_size (doc_data f))) by lia.
  rewrite (add_exact (ts_used t) (fd_size (doc_data g))) by lia.
  rewrite !add_exact by lia. lia.
Qed.

Lemma foldl_addFile_perm l l' :
  l ≡ₚ l' →
  ∀ t, entries_ok S t → room t (total_size l) →
       Forall (λ f, 0 ≤ fd_size (doc_data f)) l →
       Forall (λ f, S (doc_updatedAt f)) l →
       foldl (addFile Date_valueOf) t l = foldl (addFile Date_valueOf) t l'.
Proof.
  induction 1 as [|x l l' Hp IH|x y l|l l' l'' Hp IH Hp' IH'];
    intros t Ht Hroom Hsizes Hl; simpl.
  - done.
  - apply Forall_cons in Hl as [Hx Hl]. apply Forall_cons in Hsizes as [Hx0 Hl0].
    pose proof (total_size_nonneg _ Hl0).
    apply IH; [by apply addFile_ok| |done..].
    by apply addFile_room.
  - apply Forall_cons in Hl as [Hy Hl]. apply Forall_cons in Hl as [Hx Hl].
    apply Forall_cons in Hsizes as [Hy0 Hl0].
    apply Forall_cons in Hl0 as [Hx0 Hl0].
    pose proof (total_size_nonneg _ Hl0).
    rewrite addFile_comm; [done..|].
    simpl in Hroom. apply (room_less _ _ _ Hroom); lia.
  - rewrite IH by done. apply IH'; [done| |by rewrite <- Hp..].
    by rewrite <- (total_size_perm _ _ Hp).
Qed.
End Stamps.

Lemma stamped_elem l f :
  stamped Date_valueOf l → f ∈ l → stamp_ok Date_valueOf (doc_updatedAt f).
Proof. intros [H _] Hf. by apply (proj1 (Forall_forall _ _) H). Qed.

Lemma summarize_perm l l' :
  stamped Date_valueOf l → safe_sizes l → l ≡ₚ l' →
  summarize Date_valueOf l = summarize Date_valueOf l'.
Proof.
  intros Hl [Hsizes Hsum] Hp. unfold summarize.
  pose proof (total_size_nonneg _ Hsizes).
  apply (foldl_addFile_perm (λ s, ∃ f, f ∈ l ∧ doc_updatedAt f = s)).
  - intros s (f & Hf & <-). by eapply stamped_elem.
  - intros s s' (f & Hf & <-) (g & Hg & <-). destruct Hl as [_ Hl].
    rewrite Forall_forall in Hl. specialize (Hl f Hf).
    rewrite Forall_forall in Hl. by apply Hl.
  - done.
  - intros c. left. by destruct c.
  - split; [simpl; lia|]. intros c. destruct c; simpl; lia.
  - done.
  - apply Forall_forall. eauto.
Qed.

End Summarize.

(** Why the timestamps are asked to be valid dates with one spelling per
    instant.  Of two documents of one category whose timestamps spell the
    same instant differently, the entry keeps the spelling of whichever comes
    first, since the later one is not strictly greater.  A document whose
    timestamp is not a valid date is taken when it comes first and never
    replaced, and ignored when it comes second, since every comparison with
    an Invalid Date is false. *)
Lemma summarize_spellings :
  let a := sample_document "d1" "a.txt" "2024-11-01T10:00:00.000Z" 10 in
  let b := sample_document "d2" "b.pdf" "2024-11-01T10:00:00.000+00:00" 200 in
  let z := sample_document "d3" "c.txt" "n/a" 30 in
  ([a; b] ≡ₚ [b; a] ∧
   u_latestDate (usage_of (summarize Date_valueOf_sample [a; b]) document)
     = "2024-11-01T10:00:00.000Z" ∧
   u_latestDate (usage_of (summarize Date_valueOf_sample [b; a]) document)
     = "2024-11-01T10:00:00.000+00:00" ∧
   summarize Date_valueOf_sample [a; b] ≠ summarize Date_valueOf_sample [b; a]) ∧
  ([b; z] ≡ₚ [z; b] ∧
   summarize Date_valueOf_sample [b; z] ≠ summarize Date_valueOf_sample [z; b]).
Proof.
  cbn zeta. split_and!; try apply perm_swap; try reflexivity;
    vm_compute; discriminate.
Qed.

(** C7, as stated, fails: sizes are added as doubles, and a sum of doubles
    depends on the order once it passes 2^53.  Three documents with
    timestamps as the database assigns them, of 2^53 bytes, 1 byte and 1
    byte: taken in this order each single byte is rounded away and the total
    is 2^53; taken in the reverse order the total is 2^53 + 2. *)
Lemma summarize_depends_on_order :
  let l := [ sample_document "d1" "a.txt" "2024-11-01T10:00:00.000+00:00" (2 ^ 53);
             sample_document "d2" "b.txt" "2024-11-02T10:00:00.000+00:00" 1;
             sample_document "d3" "c.txt" "2024-10-30T08:30:00.000+00:00" 1 ] in
  stamped Date_valueOf_sample l ∧
  l ≡ₚ reverse l ∧
  ts_used (summarize Date_valueOf_sample l) = 2 ^ 53 ∧
  ts_used (summarize Date_valueOf_sample (reverse l)) = 2 ^ 53 + 2 ∧
  summarize Date_valueOf_sample l ≠ summarize Date_valueOf_sample (reverse l).
Proof.
  cbn zeta. split_and!.
  - apply (bool_decide_eq_true_1 (stamped Date_valueOf_sample _)).
    vm_compute. reflexivity.
  - apply Permutation_sym, reverse_Permutation.
  - vm_compute. reflexivity.
  - vm_compute. reflexivity.
  - vm_compute. discriminate.
Qed.

(** C7, amended: over no documents the pass leaves every size and the total
    at zero, every latest date empty and the capacity at 2 GiB.  One document
    adds its size, with [+] on doubles, to its own category and to the total,
    and changes a latest date only in its own category, to its own timestamp,
    when that entry had no date yet or the document's date is strictly
    later.  For documents whose sizes add up without rounding (none negative,
    their sum at most 2^53) and whose timestamps are valid dates with one
    spelling per instant, as the database assigns them, the result does not
    depend on the order of the documents. *)
Theorem summarize_order_independent (Date_valueOf : string → option Z) :
  Date_valueOf "" = None →
  summarize Date_valueOf [] =
    {| ts_image := {| u_size := 0; u_latestDate := "" |};
       ts_document := {| u_size := 0; u_latestDate := "" |};
       ts_video := {| u_size := 0; u_latestDate := "" |};
       ts_audio := {| u_size := 0; u_latestDate := "" |};
       ts_other := {| u_size := 0; u_latestDate := "" |};
       ts_used := 0;
       ts_all := 2147483648 |} ∧
  (∀ t f,
     ts_used (addFile Date_valueOf t f) = Js.add (ts_used t) (fd_size (doc_data f)) ∧
     ts_all (addFile Date_valueOf t f) = ts_all t ∧
     ∀ c,
       u_size (usage_of (addFile Date_valueOf t f) c) =
         (if decide (fd_type (doc_data f) = c)
          then Js.add (u_size (usage_of t c)) (fd_size (doc_data f))
          else u_size (usage_of t c)) ∧
       (u_latestDate (usage_of (addFile Date_valueOf t f) c)
          ≠ u_latestDate (usage_of t c) →
        fd_type (doc_data f) = c ∧
        u_latestDate (usage_of (addFile Date_valueOf t f) c) = doc_updatedAt f ∧
        (u_latestDate (usage_of t c) = "" ∨
         Date_gt Date_valueOf (doc_updatedAt f) (u_latestDate (usage_of t c))
           = true))) ∧
  (∀ l l',
     stamped Date_valueOf l → safe_sizes l → l ≡ₚ l' →
     summarize Date_valueOf l = summarize Date_valueOf l').
Proof.
  intros Hempty. split_and!.
  - reflexivity.
  - intros t f. split_and!; [by rewrite addFile_fields..|].
    intros c. rewrite usage_of_addFile. case_decide; simpl.
    + split; [done|]. intros Hne. split; [done|].
      destruct (u_latestDate (usage_of t c)) eqn:Hl; simpl in *; [by auto|].
      destruct (Date_gt _ _ _); [by auto|done].
    + split; done.
  - by apply summarize_perm.
Qed.

Lemma summarize_order_independent_witness :
  summarize Date_valueOf_sample sample_documents
    = summarize Date_valueOf_sample (reverse sample_documents) ∧
  usage_of (summarize Date_valueOf_sample sample_documents) document
    = {| u_size := 210; u_latestDate := "2024-11-02T10:00:00.000+00:00" |}.
Proof.
  split; [|vm_compute; reflexivity].
  apply (proj2 (proj2 (summarize_order_independent Date_valueOf_sample eq_refl))).
  - apply (bool_decide_eq_true_1 (stamped Date_valueOf_sample sample_documents)).
    vm_compute. reflexivity.
  - apply (bool_decide_eq_true_1 (safe_sizes sample_documents)).
    vm_compute. reflexivity.
  - apply Permutation_sym, reverse_Permutation.
Defined.

(** * Further properties of the code *)

(** ** getFileType: what the classification depends on *)

Lemma split_pieces sep s p : p ∈ Js.split sep s → occurs sep p = false.
Proof.
  revert p. induction s as [|a r IH]; simpl; intros p Hp.
  - apply list_elem_of_singleton in Hp. by subst.
  - destruct (Ascii.eqb a sep) eqn:Ha.
    + apply elem_of_cons in Hp as [->|Hp]; [done|by apply IH].
    + destruct (Js.split sep r) as [|q qs] eqn:Hs.
      * apply list_elem_of_singleton in Hp. subst. simpl. by rewrite Ha.
      * apply elem_of_cons in Hp as [->|Hp].
        -- simpl. rewrite Ha. apply IH. apply elem_of_cons. by left.
        -- apply IH. apply elem_of_cons. by right.
Qed.

Lemma split_app_last sep s r :
  occurs sep r = false →
  ∃ p ps, Js.split sep (s ++ String sep r) = ((p :: ps) ++ [r])%list.
Proof.
  intros Hr. induction s as [|a s (p & ps & IH)]; simpl.
  - rewrite Ascii.eqb_refl, (split_without _ _ Hr). by exists "", [].
  - rewrite IH. destruct (Ascii.eqb a sep); simpl.
    + by exists "", (p :: ps).
    + by exists (String a p), ps.
Qed.

Lemma last_split_app sep s r :
  occurs sep r = false →
  last (Js.split sep (s ++ String sep r)) = Some r.
Proof.
  intros Hr. destruct (split_app_last sep s r Hr) as (p & ps & ->).
  apply last_snoc.
Qed.

Lemma lower_ascii_idem c : Js.lower_ascii (Js.lower_ascii c) = Js.lower_ascii c.
Proof. by destruct c as [[] [] [] [] [] [] [] []]. Qed.

Lemma lower_ascii_dot c :
  Ascii.eqb (Js.lower_ascii c) "." = Ascii.eqb c ".".
Proof. by destruct c as [[] [] [] [] [] [] [] []]. Qed.

Lemma toLowerCase_idem s : Js.toLowerCase (Js.toLowerCase s) = Js.toLowerCase s.
Proof. induction s; simpl; [done|]. by rewrite lower_ascii_idem, IHs. Qed.

Lemma occurs_toLowerCase s : occurs "." (Js.toLowerCase s) = occurs "." s.
Proof. induction s; simpl; [done|]. by rewrite lower_ascii_dot, IHs. Qed.

Lemma extension_of_last name :
  ∃ p, p ∈ Js.split "." name ∧ extension_of name = Some (Js.toLowerCase p).
Proof.
  unfold extension_of, Js.pop.
  destruct (Js.split "." name) as [|q qs] eqn:Hs using rev_ind.
  - by destruct (split_not_nil "." name).
  - exists q. rewrite last_snoc. split; [|done].
    apply elem_of_app. right. by apply list_elem_of_singleton.
Qed.

Lemma extension_of_app name ext :
  occurs "." ext = false →
  extension_of (name ++ String "." ext) = Some (Js.toLowerCase ext).
Proof.
  intros H. unfold extension_of, Js.pop. by rewrite (last_split_app _ _ _ H).
Qed.

(** The result of [getFileType] as a function of the lower-cased last
    piece. *)
Lemma getFileType_extension name e :
  extension_of name = Some e → extension (getFileType name) = e.
Proof.
  intros H. unfold getFileType. rewrite H.
  destruct e; [done|]. simpl negb. cbv iota.
  repeat match goal with |- context [if ?c then _ else _] => destruct c end; done.
Qed.

(** Only the text after the last dot counts, and for a last piece in ASCII
    its case does not: two names whose last pieces are ASCII text and agree
    up to the case of the letters A to Z are classified alike, and the
    extension returned is the last piece with those letters in lower case. *)
Theorem getFileType_last_piece name name' ext ext' :
  Js.is_ascii ext = true →
  Js.is_ascii ext' = true →
  occurs "." ext = false →
  occurs "." ext' = false →
  Js.toLowerCase ext = Js.toLowerCase ext' →
  extension (getFileType (name ++ String "." ext)) = Js.toLowerCase ext ∧
  getFileType (name ++ String "." ext) = getFileType (name' ++ String "." ext').
Proof.
  intros _ _ H H' Heq. split.
  - apply getFileType_extension. by apply extension_of_app.
  - unfold getFileType. by rewrite !extension_of_app, Heq.
Qed.

Lemma getFileType_last_piece_witness :
  extension (getFileType "Holiday.Photo.JPG") = "jpg" ∧
  getFileType "Holiday.Photo.JPG" = getFileType "x.jpg".
Proof.
  exact (getFileType_last_piece "Holiday.Photo" "x" "JPG" "jpg"
           eq_refl eq_refl eq_refl eq_refl eq_refl).
Defined.

(** The extension [getFileType] returns is in lower case and has no dot, and
    a name that ends in a dot and that extension is classified exactly as
    the name the extension came from. *)
Theorem getFileType_extension_stable name base :
  let ext := extension (getFileType name) in
  Js.toLowerCase ext = ext ∧
  occurs "." ext = false ∧
  getFileType (base ++ String "." ext) = getFileType name.
Proof.
  destruct (extension_of_last name) as (p & Hp & He).
  cbv zeta. rewrite (getFileType_extension _ _ He).
  assert (Hdot : occurs "." (Js.toLowerCase p) = false).
  { rewrite occurs_toLowerCase. by eapply split_pieces. }
  split_and!.
  - apply toLowerCase_idem.
  - done.
  - unfold getFileType. by rewrite (extension_of_app _ _ Hdot), toLowerCase_idem, He.
Qed.

(** ** getFileIcon on the result of getFileType *)

Lemma truthy_string_false s : Js.truthy_string s = false → s = "".
Proof. by destruct s. Qed.

(** For every file name, the icon chosen for the extension and type that
    [getFileType] returns is the generic icon of that type, with two
    exceptions: pdf, doc, docx, csv and txt, which are documents, have the
    icon named after the extension, and ten extensions the classifier files
    under "other" get the video icon (wmv, flv, m4v, 3gp) or the audio icon
    (mpeg, aac, wma, m4a, aiff, alac). *)
Theorem getFileIcon_of_getFileType name :
  let info := getFileType name in
  let icon := getFileIcon (Some (extension info)) (FileType_to_string (type info)) in
  (Js.includes (own_icon ++ video_icon_only ++ audio_icon_only) (extension info)
     = false →
   icon = icon_of_type (FileType_to_string (type info))) ∧
  (Js.includes own_icon (extension info) = true →
   type info = document ∧
   icon = "/assets/icons/file-" ++ extension info ++ ".svg") ∧
  (Js.includes video_icon_only (extension info) = true →
   type info = other ∧ icon = "/assets/icons/file-video.svg") ∧
  (Js.includes audio_icon_only (extension info) = true →
   type info = other ∧ icon = "/assets/icons/file-audio.svg").
Proof.
  destruct (extension_of_last name) as (p & _ & He).
  unfold getFileType. rewrite He. generalize (Js.toLowerCase p). clear. intros e.
  destruct (Js.truthy_string e) eqn:Ht; simpl negb; cbv iota zeta.
  2:{ apply truthy_string_false in Ht as ->. vm_compute. intuition discriminate. }
  unfold getFileIcon, Js.includes, documentExtensions, imageExtensions,
    videoExtensions, audioExtensions, own_icon, video_icon_only, audio_icon_only.
  cbn [existsb app].
  split_literals e ltac:(vm_compute; intuition discriminate).
  cbn [orb extension type FileType_to_string].
  split_literals e ltac:(vm_compute; intuition discriminate).
  vm_compute. intuition discriminate.
Qed.

(** ** Links to a stored file *)

Lemma string_app_length (a b : string) :
  String.length (a ++ b) = (String.length a + String.length b)%nat.
Proof. induction a; simpl; [done|]. by rewrite IHa. Qed.

Lemma string_app_inv_head (a b c : string) : a ++ b = a ++ c → b = c.
Proof. induction a; simpl; [done|]. intros [= H]. by apply IHa. Qed.

Lemma string_app_inv_tail (a b c : string) : a ++ c = b ++ c → a = b.
Proof.
  revert b. induction a as [|x a IH]; intros [|y b]; simpl; intros H.
  - done.
  - apply (f_equal String.length) in H.
    rewrite !string_app_length in H. simpl in H. lia.
  - apply (f_equal String.length) in H.
    rewrite !string_app_length in H. simpl in H. lia.
  - injection H as -> H. f_equal. by apply IH.
Qed.

(** A view link and a download link each determine the blob they were built
    for, and the two links of one blob are never the same link. *)
Theorem file_urls_name_one_blob env id id' :
  (constructFileUrl env id = constructFileUrl env id' → id = id') ∧
  (constructDownloadUrl env id = constructDownloadUrl env id' → id = id') ∧
  constructFileUrl env id ≠ constructDownloadUrl env id.
Proof.
  unfold constructFileUrl, constructDownloadUrl. split_and!.
  - intros H. do 4 apply string_app_inv_head in H.
    by apply string_app_inv_tail in H.
  - intros H. do 4 apply string_app_inv_head in H.
    by apply string_app_inv_tail in H.
  - intros H. do 5 apply string_app_inv_head in H. discriminate.
Qed.

(** ** The dashboard: getUsageSummary and getFileTypesParams *)

Lemma string_gt_spec a b :
  string_gt a b = true → String.leb b a = true ∧ a ≠ b.
Proof.
  unfold string_gt, String.leb. rewrite (String.compare_antisym a b).
  destruct (String.compare b a) eqn:H; simpl; try done. intros _. split; [done|].
  intros ->. pose proof (String.compare_antisym b b) as Ha.
  rewrite H in Ha. discriminate.
Qed.

(** The four cards are Documents, Images, Media and Others, in this order.
    When the video and audio sizes add up without rounding (neither is
    negative and their sum is at most 2^53), the sizes on the cards add up
    to the sizes of the five categories.  The date of the Media card is the
    later, as strings, of the video and audio dates, so that a category
    without a date never hides the date of the other. *)
Theorem getUsageSummary_cards t :
  card_title <$> getUsageSummary t = ["Documents"; "Images"; "Media"; "Others"] ∧
  (0 ≤ u_size (ts_video t) → 0 ≤ u_size (ts_audio t) →
   u_size (ts_video t) + u_size (ts_audio t) ≤ 2 ^ 53 →
   foldr (λ c n, card_size c + n) 0 (getUsageSummary t) =
     u_size (ts_image t) + u_size (ts_document t) + u_size (ts_video t) +
     u_size (ts_audio t) + u_size (ts_other t)) ∧
  (∀ c, c ∈ getUsageSummary t → card_title c = "Media" →
     (card_latestDate c = u_latestDate (ts_video t) ∨
      card_latestDate c = u_latestDate (ts_audio t)) ∧
     String.leb (u_latestDate (ts_video t)) (card_latestDate c) = true ∧
     String.leb (u_latestDate (ts_audio t)) (card_latestDate c) = true ∧
     (u_latestDate (ts_audio t) = "" →
      card_latestDate c = u_latestDate (ts_video t)) ∧
     (u_latestDate (ts_video t) = "" →
      card_latestDate c = u_latestDate (ts_audio t))).
Proof.
  split_and!; [done|intros Hv Ha Hva; simpl; rewrite add_exact by done; lia|].
  intros c Hc Ht. unfold getUsageSummary in Hc.
  repeat (apply elem_of_cons in Hc as [->|Hc]; [try discriminate|]);
    [|by apply elem_of_nil in Hc].
  simpl. clear Ht.
  set (v := u_latestDate (ts_video t)). set (a := u_latestDate (ts_audio t)).
  assert (Hrefl : ∀ s, String.leb s s = true).
  { intros s. destruct (String.leb_total s s); done. }
  destruct (string_gt v a) eqn:Hgt.
  - apply string_gt_spec in Hgt as [Hle Hne]. split_and!; auto.
    intros ->. unfold string_gt in *. by destruct a.
  - split_and!; auto.
    + unfold string_gt in Hgt. unfold String.leb.
      by destruct (String.compare v a).
    + intros Ha. rewrite Ha in *. unfold string_gt in Hgt.
      destruct v; [done|]. simpl in Hgt. done.
Qed.

Lemma getUsageSummary_cards_witness :
  foldr (λ c n, card_size c + n) 0
    (getUsageSummary (summarize Date_valueOf_sample sample_documents)) = 3210.
Proof.
  etrans.
  - apply (proj1 (proj2 (getUsageSummary_cards
                           (summarize Date_valueOf_sample sample_documents))));
      vm_compute; discriminate.
  - vm_compute. reflexivity.
Defined.

(** Every file type is listed under exactly one of the four routes, a route
    the dashboard does not know lists documents, every name listed is a file
    type, and the size on each card is the size of the types listed under the
    route the card links to. *)
Theorem getFileTypesParams_routes :
  (∀ c : FileType, ∃ route,
     route ∈ routes ∧ FileType_to_string c ∈ getFileTypesParams route ∧
     ∀ route', route' ∈ routes →
       FileType_to_string c ∈ getFileTypesParams route' → route' = route) ∧
  (∀ route, route ∉ routes → getFileTypesParams route = ["document"]) ∧
  (∀ route s, s ∈ getFileTypesParams route → is_Some (FileType_of_string s)) ∧
  (∀ t card, card ∈ getUsageSummary t →
     ∃ route, route ∈ routes ∧ card_url card = "/" ++ route ∧
              card_size card = size_of_types t (getFileTypesParams route)).
Proof.
  assert (Hin : ∀ (x : string) (l : list string),
            bool_decide (x ∈ l) = true → x ∈ l)
    by (intros x l; apply bool_decide_eq_true_1).
  assert (Hout : ∀ (x : string) (l : list string),
            bool_decide (x ∈ l) = false → x ∈ l → False)
    by (intros x l; apply bool_decide_eq_false_1).
  split_and!.
  - intros c.
    exists (match c with
            | document => "documents" | image => "images"
            | video | audio => "media" | other => "others"
            end).
    destruct c; (split_and!; [by apply Hin..|]); intros route' Hr Hc;
      repeat (apply elem_of_cons in Hr as [->|Hr];
              [first [done | exfalso; refine (Hout _ _ _ Hc); by vm_compute]|]);
      by apply elem_of_nil in Hr.
  - intros route Hr. unfold getFileTypesParams.
    split_literals route ltac:(destruct Hr; by apply Hin). done.
  - intros route s. unfold getFileTypesParams.
    repeat match goal with
    | |- context [String.eqb route ?x] => destruct (String.eqb route x)
    end; intros Hs;
      repeat (apply elem_of_cons in Hs as [->|Hs]; [by eexists|]);
      by apply elem_of_nil in Hs.
  - intros t card Hc. unfold getUsageSummary in Hc.
    repeat (apply elem_of_cons in Hc as [->|Hc];
            [eexists; split; [|split; [reflexivity|]];
             [by apply Hin|reflexivity]|]).
    by apply elem_of_nil in Hc.
Qed.

(** ** The pass of getTotalSpaceUsed: sizes and latest dates *)

Lemma summarize_snoc D l f :
  summarize D (l ++ [f]) = addFile D (summarize D l) f.
Proof. unfold summarize. by rewrite foldl_snoc. Qed.


Lemma foldl_addFile_sizes D l :
  ∀ t, room t (total_size l) → Forall (λ f, 0 ≤ fd_size (doc_data f)) l →
       ts_used (foldl (addFile D) t l) = ts_used t + total_size l ∧
       ∀ c, u_size (usage_of (foldl (addFile D) t l) c) =
            u_size (usage_of t c) + total_size (of_type c l).
Proof.
  induction l as [|f l IH]; intros t Hroom Hsizes; simpl.
  - split; [lia|]. intros c. unfold of_type. simpl. lia.
  - apply Forall_cons in Hsizes as [Hf Hl].
    pose proof (total_size_nonneg _ Hl) as Hl0.
    destruct (addFile_room D t f (total_size l) Hroom Hf Hl0) as (Hu & Hc & Hr).
    destruct (IH _ Hr Hl) as [IHu IHc]. split.
    + rewrite IHu, Hu. lia.
    + intros c. rewrite IHc, Hc. unfold of_type. rewrite filter_cons.
      case_decide; simpl; lia.
Qed.


(** As long as the sizes add up without rounding, the pass computes the
    sums. *)
Lemma summarize_totals D l :
  safe_sizes l →
  ts_used (summarize D l) = total_size l ∧
  ∀ c, u_size (usage_of (summarize D l) c) = total_size (of_type c l).
Proof.
  intros [Hsizes Hsum]. pose proof (total_size_nonneg _ Hsizes).
  unfold summarize.
  destruct (foldl_addFile_sizes D l totalSpace_init) as [Hu Hc]; [|done|].
  - split; [simpl; lia|]. intros c. destruct c; simpl; lia.
  - split; [by rewrite Hu|]. intros c. rewrite Hc. by destruct c.
Qed.

Lemma safe_sizes_perm l l' : l ≡ₚ l' → safe_sizes l → safe_sizes l'.
Proof.
  intros Hp [Hsizes Hsum]. split; [by rewrite <- Hp|].
  by rewrite <- (total_size_perm _ _ Hp).
Qed.



(** With valid timestamps, the latest date of a category is empty exactly
    when the list has no document of that category, and otherwise it is the
    timestamp of one of them that no other document of the category is later
    than. *)
Theorem summarize_latest D l c :
  D "" = None →
  Forall (λ f, is_Some (D (doc_updatedAt f))) l →
  (of_type c l = [] ∧ u_latestDate (usage_of (summarize D l) c) = "") ∨
  (∃ f x, f ∈ of_type c l ∧
          u_latestDate (usage_of (summarize D l) c) = doc_updatedAt f ∧
          D (doc_updatedAt f) = Some x ∧
          ∀ g y, g ∈ of_type c l → D (doc_updatedAt g) = Some y → y ≤ x).
Proof.
  intros Hempty. induction l as [|f l IH] using rev_ind; intros Hl.
  - left. split; [done|]. by destruct c.
  - apply Forall_app in Hl as [Hl Hf]. apply Forall_singleton in Hf as [y Hy].
    specialize (IH Hl). rewrite summarize_snoc, usage_of_addFile.
    unfold of_type in *. rewrite filter_app, filter_cons, filter_nil.
    case_decide as Hc; simpl.
    2:{ rewrite app_nil_r. done. }
    assert (Hne : Js.truthy_string (doc_updatedAt f) = true).
    { destruct (doc_updatedAt f); [congruence|done]. }
    right. destruct IH as [[Hnil Hlatest]|(g & x & Hg & Hlatest & Hx & Hmax)].
    + rewrite Hnil, Hlatest. simpl. exists f, y. split_and!; [|done..|].
      * by apply list_elem_of_singleton.
      * intros g z ->%list_elem_of_singleton Hz. assert (z = y) by congruence. lia.
    + rewrite Hlatest. unfold Date_gt. rewrite Hy, Hx.
      assert (Htg : Js.truthy_string (doc_updatedAt g) = true).
      { destruct (doc_updatedAt g); [congruence|done]. }
      rewrite Htg. simpl. destruct (Z.ltb_spec x y).
      * exists f, y. split_and!; [|done..|].
        -- apply elem_of_app. right. by apply list_elem_of_singleton.
        -- intros h z [Hh| ->%list_elem_of_singleton]%elem_of_app Hz.
           ++ specialize (Hmax h z Hh Hz). lia.
           ++ assert (z = y) by congruence. lia.
      * exists g, x. split_and!; [|done..|].
        -- apply elem_of_app. by left.
        -- intros h z [Hh| ->%list_elem_of_singleton]%elem_of_app Hz.
           ++ by apply (Hmax h z).
           ++ assert (z = y) by congruence. lia.
Qed.

Lemma summarize_latest_witness :
  ∃ f x, f ∈ of_type document sample_documents ∧
         u_latestDate (usage_of (summarize Date_valueOf_sample sample_documents)
                         document) = doc_updatedAt f ∧
         Date_valueOf_sample (doc_updatedAt f) = Some x ∧
         ∀ g y, g ∈ of_type document sample_documents →
                Date_valueOf_sample (doc_updatedAt g) = Some y → y ≤ x.
Proof.
  destruct (summarize_latest Date_valueOf_sample sample_documents document eq_refl)
    as [[H _]|H].
  - repeat constructor; by eexists.
  - discriminate H.
  - exact H.
Defined.

(** ** renameFile and updateFileUsers *)

(** A rename that resolves has replaced the name of the stored document by
    [name.extension] and set a new [$updatedAt]; the stored type, extension,
    size, owner, share list and blob reference are as before, and no other
    document and no blob has changed. *)
Theorem renameFile_changes_only_name env uenv props b d' b' :
  renameFile env uenv props b = (Resolved d', b') →
  ∃ d, files b !! rf_fileId props = Some d ∧
       files b' !! rf_fileId props = Some d' ∧
       fd_name (doc_data d') = rf_name props ++ "." ++ rf_extension props ∧
       fd_users (doc_data d') = fd_users (doc_data d) ∧
       doc_updatedAt d' = now env ∧
       same_file d d' ∧
       only_changed (rf_fileId props) b b' ∧
       revalidated b' = (revalidated b ++ [rf_path props])%list.
Proof.
  unfold_update. destruct (updateDocument_fault uenv); [discriminate|].
  destruct (files b !! rf_fileId props) as [d|] eqn:Hd; [|discriminate].
  intros [= <- <-]. exists d. simpl. split_and!; try done.
  - apply lookup_insert_eq.
  - split; [|done]. intros j Hj. by apply lookup_insert_ne.
Qed.

Lemma renameFile_changes_only_name_witness :
  ∃ d' b', renameFile (deployment None None None None) update_ok
             {| rf_fileId := "doc-1"; rf_name := "notes"; rf_extension := "txt";
                rf_path := "/documents" |} stored_backend = (Resolved d', b') ∧
           fd_name (doc_data d') = "notes.txt" ∧
           fd_extension (doc_data d') = "txt" ∧
           bucket b' = bucket stored_backend.
Proof.
  eexists _, _. split; [vm_compute; reflexivity|].
  destruct (renameFile_changes_only_name (deployment None None None None)
              update_ok
              {| rf_fileId := "doc-1"; rf_name := "notes"; rf_extension := "txt";
                 rf_path := "/documents" |} stored_backend _ _ eq_refl)
    as (d & _ & _ & Hname & _ & _ & _ & [_ Hbucket] & _).
  split; [exact Hname|]. split; [reflexivity|exact Hbucket].
Defined.

(** An update that the database rejects, for a fault or for a file it does
    not hold, changes nothing and revalidates no path; the error is thrown
    on, after being logged as "Failed to rename file", by [renameFile] and
    by [updateFileUsers] alike. *)
Theorem update_rejected env uenv b e :
  (∀ props,
     updateDocument_fault uenv = Some e ∨
     (updateDocument_fault uenv = None ∧ files b !! rf_fileId props = None ∧
      e = document_not_found uenv) →
     renameFile env uenv props b =
       (Rejected e, add_console (LogError e "Failed to rename file") b)) ∧
  (∀ props,
     updateDocument_fault uenv = Some e ∨
     (updateDocument_fault uenv = None ∧ files b !! uf_fileId props = None ∧
      e = document_not_found uenv) →
     updateFileUsers env uenv props b =
       (Rejected e, add_console (LogError e "Failed to rename file") b)).
Proof.
  split; intros props [H|(H & Hd & ->)]; unfold_update; rewrite H; try done;
    by rewrite Hd.
Qed.

Lemma update_rejected_witness :
  updateFileUsers (deployment None None None None) update_ok
    {| uf_fileId := "doc-9"; uf_emails := ["u2@x.com"]; uf_path := "/" |}
    stored_backend =
  (Rejected "document not found",
   add_console (LogError "document not found" "Failed to rename file")
               stored_backend).
Proof.
  apply (proj2 (update_rejected (deployment None None None None) update_ok
                  stored_backend "document not found")).
  right. split_and!; reflexivity.
Defined.

(** What [updateFileUsers] has done when it resolves. *)
Lemma updateFileUsers_resolved env uenv props b d' b' :
  updateFileUsers env uenv props b = (Resolved d', b') →
  ∃ d, files b !! uf_fileId props = Some d ∧
       files b' !! uf_fileId props = Some d' ∧
       fd_users (doc_data d') = uf_emails props ∧
       fd_name (doc_data d') = fd_name (doc_data d) ∧
       same_file d d' ∧
       only_changed (uf_fileId props) b b' ∧
       ∀ u, passes (textContains env) d' (access_query u) = true ↔
            fd_owner (doc_data d) = user_id u ∨ user_email u ∈ uf_emails props.
Proof.
  unfold_update. destruct (updateDocument_fault uenv); [discriminate|].
  destruct (files b !! uf_fileId props) as [d|] eqn:Hd; [|discriminate].
  intros [= <- <-]. exists d. split_and!; try done.
  - apply lookup_insert_eq.
  - split; [|done]. intros j Hj. by apply lookup_insert_ne.
  - intros u. by rewrite passes_access_query.
Qed.

(** A change of the share list that resolves replaces the list by the emails
    given, it does not add to it; nothing else of the file changes.  From
    then on a user sees the file exactly when the user owns it or the user's
    email is among those emails. *)
Theorem updateFileUsers_replaces_list env uenv props b d' b' :
  updateFileUsers env uenv props b = (Resolved d', b') →
  ∃ d, files b !! uf_fileId props = Some d ∧
       files b' !! uf_fileId props = Some d' ∧
       fd_users (doc_data d') = uf_emails props ∧
       fd_name (doc_data d') = fd_name (doc_data d) ∧
       same_file d d' ∧
       only_changed (uf_fileId props) b b' ∧
       ∀ u, passes (textContains env) d' (access_query u) = true ↔
            fd_owner (doc_data d) = user_id u ∨ user_email u ∈ uf_emails props.
Proof. apply updateFileUsers_resolved. Qed.

Lemma updateFileUsers_replaces_list_witness :
  ∃ d' b', updateFileUsers (deployment None None None None) update_ok
             {| uf_fileId := "doc-1"; uf_emails := ["u2@x.com"]; uf_path := "/" |}
             stored_backend = (Resolved d', b') ∧
           passes Js.str_includes d'
             (access_query {| user_id := "u2"; user_email := "u2@x.com" |}) = true ∧
           passes Js.str_includes d'
             (access_query {| user_id := "u3"; user_email := "u3@x.com" |}) = false.
Proof.
  eexists _, _. split; [vm_compute; reflexivity|].
  destruct (updateFileUsers_replaces_list (deployment None None None None)
              update_ok
              {| uf_fileId := "doc-1"; uf_emails := ["u2@x.com"]; uf_path := "/" |}
              stored_backend _ _ eq_refl) as (d & _ & _ & _ & _ & _ & _ & Hsee).
  split.
  - apply (proj2 (Hsee {| user_id := "u2"; user_email := "u2@x.com" |})).
    right. simpl. apply elem_of_cons. by left.
  - reflexivity.
Defined.

(** ** getFiles and getTotalSpaceUsed *)

Lemma createQueries_parts u types searchText sort limit :
  createQueries u types searchText sort limit =
  ([access_query u] ++
   (if (0 <? length types)%nat then [Q_equal "type" types] else []) ++
   (if Js.truthy_string searchText then [Q_contains "name" [searchText]] else []) ++
   (match limit with
    | Some n => if negb (n =? 0) then [Q_limit n] else []
    | None => []
    end) ++
   (if Js.truthy_string sort
    then [ if bool_decide (Js.split "-" sort !! 1%nat = Some "asc")
           then Q_orderAsc (default "" (Js.split "-" sort !! 0%nat))
           else Q_orderDesc (default "" (Js.split "-" sort !! 0%nat)) ]
    else []))%list.
Proof.
  unfold createQueries, access_query.
  destruct (0 <? length types)%nat, (Js.truthy_string searchText),
    limit as [n|], (Js.truthy_string sort);
    try destruct (negb (n =? 0)); reflexivity.
Qed.

Lemma createQueries_page_size default u types searchText sort limit :
  page_size default (createQueries u types searchText sort limit) =
  match limit with
  | Some n => if n =? 0 then default else Z.to_nat n
  | None => default
  end.
Proof.
  rewrite createQueries_parts.
  destruct (0 <? length types)%nat, (Js.truthy_string searchText),
    limit as [n|], (Js.truthy_string sort);
    try destruct (n =? 0); simpl; try reflexivity;
    by destruct (bool_decide _).
Qed.

Lemma select_complete contains default queries stored d :
  d ∈ stored → passes_all contains queries d = true →
  (length stored ≤ page_size default queries)%nat →
  d ∈ documents (select contains default queries stored).
Proof.
  intros Hd Hp Hlen. unfold select. simpl. rewrite take_ge.
  - rewrite merge_sort_Permutation. apply list_elem_of_filter. done.
  - rewrite merge_sort_Permutation.
    etrans; [apply length_filter|done].
Qed.

Lemma stored_documents_elem b d :
  d ∈ stored_documents b ↔ ∃ k, files b !! k = Some d.
Proof.
  unfold stored_documents. rewrite list_elem_of_fmap. split.
  - intros ([k d'] & -> & Hk%elem_of_map_to_list). eauto.
  - intros [k Hk]. exists (k, d). split; [done|]. by apply elem_of_map_to_list.
Qed.

Lemma stored_documents_length b : length (stored_documents b) = size (files b).
Proof. unfold stored_documents. by rewrite length_fmap, length_map_to_list. Qed.

(** A plain listing shows the caller every stored file the caller may see,
    as long as the collection fits in one page. *)
Lemma getFiles_lists env b u k d :
  currentUser env = Some u →
  listDocuments_fault env = None →
  files b !! k = Some d →
  may_see u d →
  (size (files b) ≤ defaultLimit env)%nat →
  ∃ r b', getFiles env list_all b = (Resolved r, b') ∧ d ∈ documents r.
Proof.
  intros Hu Hf Hk Hsee Hsize.
  pose proof (getFiles_run env list_all b) as Hrun.
  rewrite Hu, Hf in Hrun. cbv zeta in Hrun.
  eexists _, _. split; [exact Hrun|].
  apply select_complete.
  - apply stored_documents_elem. eauto.
  - unfold passes_all.
    change (createQueries u _ _ _ _)
      with [access_query u; Q_orderDesc "$createdAt"].
    cbn [forallb].
    by rewrite (proj2 (passes_access_query (textContains env) u d) Hsee).
  - by rewrite (stored_documents_length b).
Qed.

(** After [updateFileUsers] has resolved, a user whose email is among the
    emails given finds the file in a plain listing (the collection fitting
    in one page). *)
Theorem share_then_list env uenv env' props b d' b1 u :
  updateFileUsers env uenv props b = (Resolved d', b1) →
  user_email u ∈ uf_emails props →
  currentUser env' = Some u →
  listDocuments_fault env' = None →
  (size (files b1) ≤ defaultLimit env')%nat →
  ∃ r b2, getFiles env' list_all b1 = (Resolved r, b2) ∧ d' ∈ documents r.
Proof.
  intros Hrun Hin Hu Hf Hsize.
  destruct (updateFileUsers_resolved _ _ _ _ _ _ Hrun)
    as (d & _ & Hd' & _ & _ & _ & _ & Hsee).
  eapply getFiles_lists; try done.
  apply (passes_access_query (textContains env)), Hsee. by right.
Qed.

Lemma share_then_list_witness :
  ∃ d' b1 r b2,
    updateFileUsers (deployment None None None None) update_ok
      {| uf_fileId := "doc-1"; uf_emails := ["u2@x.com"]; uf_path := "/" |}
      stored_backend = (Resolved d', b1) ∧
    getFiles deployment_u2 list_all b1 = (Resolved r, b2) ∧ d' ∈ documents r.
Proof.
  destruct (share_then_list (deployment None None None None) update_ok
              deployment_u2
              {| uf_fileId := "doc-1"; uf_emails := ["u2@x.com"]; uf_path := "/" |}
              stored_backend _ _ {| user_id := "u2"; user_email := "u2@x.com" |}
              eq_refl) as (r & b2 & Hr & Hd).
  - apply elem_of_cons. by left.
  - reflexivity.
  - reflexivity.
  - vm_compute. lia.
  - eexists _, _, r, b2. split; [reflexivity|]. split; [exact Hr|exact Hd].
Defined.

(** After [uploadFile] has resolved, the owner finds the new file in a plain
    listing (the collection fitting in one page). *)
Theorem upload_then_list env env' props b doc b1 u :
  uploadFile env props b = (Resolved doc, b1) →
  currentUser env' = Some u →
  user_id u = ownerId props →
  listDocuments_fault env' = None →
  (size (files b1) ≤ defaultLimit env')%nat →
  ∃ r b2, getFiles env' list_all b1 = (Resolved r, b2) ∧ doc ∈ documents r.
Proof.
  intros Hrun Hu Hid Hf Hsize.
  destruct (uploadFile_cases env props b)
    as [(e & He & _)|(doc' & Hd & Hdata & Hstored & _)];
    rewrite Hrun in *; simpl in *; [discriminate|].
  injection Hd as <-. eapply getFiles_lists; try done.
  left. by rewrite Hdata.
Qed.

Lemma upload_then_list_witness :
  ∃ doc b1 r b2,
    uploadFile (deployment None None None None) a_txt empty_backend
      = (Resolved doc, b1) ∧
    getFiles (deployment None None None None) list_all b1 = (Resolved r, b2) ∧
    doc ∈ documents r.
Proof.
  destruct (upload_then_list (deployment None None None None)
              (deployment None None None None) a_txt empty_backend _ _
              {| user_id := "u1"; user_email := "u1@x.com" |} eq_refl)
    as (r & b2 & Hr & Hd).
  - reflexivity.
  - reflexivity.
  - reflexivity.
  - vm_compute. lia.
  - eexists _, _, r, b2. split; [reflexivity|]. split; [exact Hr|exact Hd].
Defined.

(** What a listing that resolves contains: only files of the types asked
    for, when types are given; only files whose name the database finds to
    contain the search text, when one is given; and at most [limit] files, a
    limit of 0 or none standing for the page size of the database.  The
    listing changes neither store. *)
Theorem getFiles_filters env props b u r b' :
  currentUser env = Some u →
  getFiles env props b = (Resolved r, b') →
  (∀ d, d ∈ documents r →
     (default [] (gf_types props) ≠ [] →
      FileType_to_string (fd_type (doc_data d)) ∈ default [] (gf_types props)) ∧
     (default "" (gf_searchText props) ≠ "" →
      textContains env (default "" (gf_searchText props)) (fd_name (doc_data d))
        = true)) ∧
  (length (documents r) ≤
     match gf_limit props with
     | Some n => if (n =? 0)%Z then defaultLimit env else Z.to_nat n
     | None => defaultLimit env
     end)%nat ∧
  files b' = files b ∧ bucket b' = bucket b.
Proof.
  intros Hu. rewrite getFiles_run, Hu. cbv zeta.
  destruct (listDocuments_fault env); [discriminate|].
  destruct (getCurrentUser_stores env b) as (Hfiles & Hbucket & _).
  intros [= <- <-]. split_and!; [|simpl|done..].
  - intros d [_ Hp]%select_passes. unfold passes_all in Hp.
    rewrite forallb_forall in Hp. rewrite createQueries_parts in Hp. split.
    + intros Ht. destruct (default [] (gf_types props)) as [|t ts] eqn:Hts; [done|].
      apply includes_elem_of.
      apply (Hp (Q_equal "type" (t :: ts))). apply list_elem_of_In.
      simpl. rewrite !elem_of_cons. auto.
    + intros Hs.
      destruct (default "" (gf_searchText props)) as [|c s] eqn:Hss; [done|].
      assert (Hq : passes (textContains env) d (Q_contains "name" [String c s])
                   = true).
      { apply Hp, list_elem_of_In. simpl Js.truthy_string. cbv iota.
        rewrite !elem_of_app, !list_elem_of_singleton. auto. }
      simpl in Hq. by rewrite orb_false_r in Hq.
  - rewrite length_take, createQueries_page_size. lia.
Qed.

Lemma getFiles_filters_witness :
  ∃ r b',
    getFiles (deployment None None None None)
      {| gf_types := Some ["document"]; gf_searchText := Some "a.t";
         gf_sort := None; gf_limit := Some 5 |} stored_backend = (Resolved r, b') ∧
    length (documents r) = 1%nat ∧
    (∀ d, d ∈ documents r →
          fd_type (doc_data d) = document ∧
          Js.str_includes "a.t" (fd_name (doc_data d)) = true) ∧
    files b' = files stored_backend.
Proof.
  eexists _, _. split; [vm_compute; reflexivity|].
  destruct (getFiles_filters (deployment None None None None)
              {| gf_types := Some ["document"]; gf_searchText := Some "a.t";
                 gf_sort := None; gf_limit := Some 5 |}
              stored_backend {| user_id := "u1"; user_email := "u1@x.com" |}
              _ _ eq_refl eq_refl) as (Hd & _ & Hfiles & _).
  split; [vm_compute; reflexivity|]. split; [|exact Hfiles].
  intros d Hin. destruct (Hd d Hin) as [Ht Hs]. split.
  - assert (Hin' : FileType_to_string (fd_type (doc_data d)) ∈ ["document"])
      by (apply Ht; discriminate).
    apply list_elem_of_singleton in Hin'.
    by destruct (fd_type (doc_data d)).
  - apply Hs. discriminate.
Defined.

(** A run of [getTotalSpaceUsed], by the session cookie, by what
    [getCurrentUser] resolved with and by the answer of the database. *)
Lemma getTotalSpaceUsed_run env D b :
  getTotalSpaceUsed env D b =
  let message := "Error calculating total space used:, " in
  if from_option Js.truthy_string false (sessionCookie env) then
    let b1 := snd (getCurrentUser env b) in
    match currentUser env with
    | None =>
        (Rejected "User is not authenticated.",
         add_console (LogError "User is not authenticated." message) b1)
    | Some u =>
        let queries := [Q_equal "owner" [user_id u]] in
        let b2 := add_request (ReqListDocuments queries) b1 in
        match listDocuments_fault env with
        | Some e => (Rejected e, add_console (LogError e message) b2)
        | None =>
            (Resolved
               (summarize D
                  (documents (select (textContains env) (defaultLimit env)
                                queries (stored_documents b)))), b2)
        end
    end
  else (Rejected "No session", add_console (LogError "No session" message) b).
Proof.
  unfold getTotalSpaceUsed, createSessionClient, catch, mbind, Action_bind, bind.
  cbv zeta. destruct (sessionCookie env) as [value|]; [|done]. simpl.
  destruct (Js.truthy_string value); [|done]. simpl.
  pose proof (getCurrentUser_value env b) as Hv.
  destruct (getCurrentUser_stores env b) as (Hf & _).
  destruct (getCurrentUser env b) as [o b1]. simpl in Hv, Hf. subst o.
  cbn [snd].
  destruct (currentUser env) as [u|]; [|done].
  unfold databases_listDocuments, handleError, console_log, throw, mbind, mret,
    Action_bind, Action_ret, bind, ret, parseStringify, stored_documents.
  cbn beta iota. destruct (listDocuments_fault env); [done|].
  cbn [files add_request]. by rewrite Hf.
Qed.

Lemma last_console_add entry b : last (console (add_console entry b)) = Some entry.
Proof. simpl. apply last_snoc. Qed.

(** Without a signed-in user nothing is asked of the files collection.
    With no session cookie, or an empty one, no request is made at all:
    [getFiles] rejects with "User not found" after [getCurrentUser] has logged
    "No session", and [getTotalSpaceUsed] rejects with "No session".  Whenever
    [getCurrentUser] finds no user, [getFiles] rejects with "User not found",
    and [getTotalSpaceUsed], given a cookie, with "User is not
    authenticated."; the error is logged last and thrown on, no listing of
    files is requested, and both stores are as before. *)
Theorem listings_need_a_user env D props b :
  (sessionCookie env = None ∨ sessionCookie env = Some "" →
   getFiles env props b =
     (Rejected "User not found",
      add_console (LogError "User not found" "Failed to get files")
        (add_console (LogValue "No session") b)) ∧
   getTotalSpaceUsed env D b =
     (Rejected "No session",
      add_console
        (LogError "No session" "Error calculating total space used:, ") b)) ∧
  (currentUser env = None →
   fst (getFiles env props b) = Rejected "User not found" ∧
   last (console (snd (getFiles env props b))) =
     Some (LogError "User not found" "Failed to get files") ∧
   (∀ queries,
      ReqListDocuments queries ∉ issued b (snd (getFiles env props b))) ∧
   files (snd (getFiles env props b)) = files b ∧
   bucket (snd (getFiles env props b)) = bucket b) ∧
  (∀ value, sessionCookie env = Some value → value ≠ "" →
   currentUser env = None →
   fst (getTotalSpaceUsed env D b) = Rejected "User is not authenticated." ∧
   last (console (snd (getTotalSpaceUsed env D b))) =
     Some (LogError "User is not authenticated."
                    "Error calculating total space used:, ") ∧
   (∀ queries,
      ReqListDocuments queries ∉ issued b (snd (getTotalSpaceUsed env D b))) ∧
   files (snd (getTotalSpaceUsed env D b)) = files b ∧
   bucket (snd (getTotalSpaceUsed env D b)) = bucket b).
Proof.
  destruct (getCurrentUser_stores env b) as (Hfiles & Hbucket & _ & Hreq).
  split_and!.
  - intros Hc. pose proof (getCurrentUser_no_session env b Hc) as Hrun.
    pose proof (getCurrentUser_value env b) as Hv. rewrite Hrun in Hv.
    injection Hv as Hv. split.
    + by rewrite getFiles_run, Hrun, <- Hv.
    + rewrite getTotalSpaceUsed_run. by destruct Hc as [-> | ->].
  - intros Hu. rewrite getFiles_run, Hu. cbv zeta. cbn [fst snd].
    split_and!; [done|apply last_console_add|exact Hreq|done..].
  - intros value Hc Hvalue Hu. rewrite getTotalSpaceUsed_run, Hc, Hu. cbv zeta.
    destruct value; [done|]. cbn [from_option Js.truthy_string fst snd].
    split_and!; [done|apply last_console_add|exact Hreq|done..].
Qed.

Lemma listings_need_a_user_witness :
  getFiles signed_out list_all stored_backend =
    (Rejected "User not found",
     add_console (LogError "User not found" "Failed to get files")
       (add_console (LogValue "No session") stored_backend)) ∧
  fst (getTotalSpaceUsed signed_out Date_valueOf_sample stored_backend)
    = Rejected "No session" ∧
  fst (getTotalSpaceUsed stale_session Date_valueOf_sample stored_backend)
    = Rejected "User is not authenticated.".
Proof.
  split_and!.
  - apply (proj1 (listings_need_a_user signed_out Date_valueOf_sample
                    list_all stored_backend)). by left.
  - rewrite (proj2 (proj1 (listings_need_a_user signed_out Date_valueOf_sample
                             list_all stored_backend) (or_introl eq_refl))).
    reflexivity.
  - apply (proj2 (proj2 (listings_need_a_user stale_session Date_valueOf_sample
                           list_all stored_backend)) "stale");
      [reflexivity|discriminate|reflexivity].
Defined.

Lemma passes_owner contains u d :
  passes_all contains [Q_equal "owner" [user_id u]] d = true ↔
  fd_owner (doc_data d) = user_id u.
Proof.
  unfold passes_all. cbn. rewrite orb_false_r, andb_true_r.
  apply String.eqb_eq.
Qed.

(** What [getTotalSpaceUsed] adds up are files the caller owns, never files
    that are only shared with the caller, and at most one page of them; when
    the collection fits in one page and the sizes of the caller's files add
    up without rounding (none negative, their sum at most 2^53), the total is
    the size of all the files the caller owns.  The stores are left as they
    were. *)
Theorem getTotalSpaceUsed_counts_owned env D b u t b' :
  currentUser env = Some u →
  getTotalSpaceUsed env D b = (Resolved t, b') →
  (∃ docs, t = summarize D docs ∧
           (length docs ≤ defaultLimit env)%nat ∧
           ∀ d, d ∈ docs →
                d ∈ stored_documents b ∧ fd_owner (doc_data d) = user_id u) ∧
  ((size (files b) ≤ defaultLimit env)%nat →
   safe_sizes (filter (λ d, fd_owner (doc_data d) = user_id u)
                      (stored_documents b)) →
   ts_used t =
     total_size (filter (λ d, fd_owner (doc_data d) = user_id u)
                        (stored_documents b))) ∧
  files b' = files b ∧ bucket b' = bucket b.
Proof.
  intros Hu. rewrite getTotalSpaceUsed_run, Hu. cbv zeta.
  destruct (from_option Js.truthy_string false (sessionCookie env));
    [|discriminate].
  destruct (listDocuments_fault env); [discriminate|].
  destruct (getCurrentUser_stores env b) as (Hfiles & Hbucket & _).
  intros [= <- <-].
  split_and!; [|intros Hsize Hsafe|done..].
  - exists (documents (select (textContains env) (defaultLimit env)
                        [Q_equal "owner" [user_id u]] (stored_documents b))).
    split; [reflexivity|]. split.
    + unfold select. simpl. rewrite length_take. lia.
    + intros d [Hd Hp]%select_passes. split; [done|]. by apply passes_owner in Hp.
  - set (owned := filter (λ d, fd_owner (doc_data d) = user_id u)
                         (stored_documents b)) in *.
    set (docs := documents (select (textContains env) (defaultLimit env)
                   [Q_equal "owner" [user_id u]] (stored_documents b))).
    assert (Hp : owned ≡ₚ docs).
    { subst docs owned. unfold select. cbn [documents]. rewrite take_ge.
      - rewrite merge_sort_Permutation.
        apply Permutation_refl'. apply list_filter_iff.
        intros d. symmetry. apply passes_owner.
      - rewrite merge_sort_Permutation. etrans; [apply length_filter|].
        by rewrite stored_documents_length. }
    change (ts_used (summarize D docs) = total_size owned).
    rewrite (proj1 (summarize_totals D docs (safe_sizes_perm _ _ Hp Hsafe))).
    symmetry. by apply total_size_perm.
Qed.

Lemma getTotalSpaceUsed_counts_owned_witness :
  ∃ t b', getTotalSpaceUsed (deployment None None None None) Date_valueOf_sample
            stored_backend = (Resolved t, b') ∧
          ts_used t = 10.
Proof.
  eexists _, _. split; [vm_compute; reflexivity|].
  destruct (getTotalSpaceUsed_counts_owned (deployment None None None None)
              Date_valueOf_sample stored_backend
              {| user_id := "u1"; user_email := "u1@x.com" |} _ _ eq_refl eq_refl)
    as (_ & Hused & _).
  etrans; [apply Hused|vm_compute; reflexivity].
  - vm_compute. lia.
  - apply (bool_decide_eq_true_1 (safe_sizes _)). vm_compute. reflexivity.
Defined.

(** ** uploadFile and deleteFile: the remaining paths *)

(** When the storage rejects the upload, [uploadFile] rejects with that
    error after logging it: the blob write is the only request made, no
    document is inserted, nothing is deleted, no path is revalidated, and
    both stores are as before. *)
Theorem uploadFile_storage_rejects env props b e :
  createFile_fault env = Some e →
  fst (uploadFile env props b) = Rejected e ∧
  issued b (snd (uploadFile env props b)) = [ReqCreateFile (blob_id env b)] ∧
  bucket (snd (uploadFile env props b)) = bucket b ∧
  files (snd (uploadFile env props b)) = files b ∧
  revalidated (snd (uploadFile env props b)) = revalidated b ∧
  console (snd (uploadFile env props b)) =
    (console b ++ [LogError e "Failed to upload file"])%list.
Proof.
  intros H. unfold_action. rewrite H. split_and!; try done. by issued_simpl.
Qed.

Lemma uploadFile_storage_rejects_witness :
  let env := deployment (Some "bucket full") None None None in
  fst (uploadFile env a_txt empty_backend) = Rejected "bucket full" ∧
  issued empty_backend (snd (uploadFile env a_txt empty_backend))
    = [ReqCreateFile "blob-0"].
Proof.
  destruct (uploadFile_storage_rejects (deployment (Some "bucket full") None None None)
              a_txt empty_backend "bucket full" eq_refl) as (H1 & H2 & _).
  split; [exact H1|exact H2].
Defined.

(** A delete with the identifiers of the document that an upload returned
    undoes the upload: when the identifiers were unused before the upload,
    both stores are back to what they were. *)
Theorem upload_then_delete env env' props route b doc b1 r b2 :
  uploadFile env props b = (Resolved doc, b1) →
  files b !! doc_id doc = None →
  bucket b !! fd_bucketFileId (doc_data doc) = None →
  deleteFile env' {| fileId := doc_id doc;
                     bucketFileId := fd_bucketFileId (doc_data doc);
                     df_path := route |} b1 = (Resolved r, b2) →
  files b2 = files b ∧ bucket b2 = bucket b.
Proof.
  unfold_action. settle env; try discriminate.
  intros [= <- <-]. simpl. intros Hf Hb.
  settle env'; try discriminate. intros [= <- <-]. simpl.
  split; by apply delete_insert_id.
Qed.

Lemma upload_then_delete_witness :
  ∃ doc b1 r b2,
    uploadFile (deployment None None None None) a_txt empty_backend
      = (Resolved doc, b1) ∧
    deleteFile (deployment None None None None)
      {| fileId := doc_id doc; bucketFileId := fd_bucketFileId (doc_data doc);
         df_path := "/documents" |} b1 = (Resolved r, b2) ∧
    files b2 = files empty_backend ∧ bucket b2 = bucket empty_backend.
Proof.
  eexists _, _, _, _. split; [vm_compute; reflexivity|].
  split; [vm_compute; reflexivity|].
  eapply (upload_then_delete (deployment None None None None)
            (deployment None None None None) a_txt "/documents" empty_backend);
    [vm_compute; reflexivity | reflexivity | reflexivity
    | vm_compute; reflexivity].
Defined.

(** When the document delete resolves and the blob delete rejects,
    [deleteFile] rejects with the blob's error and logs it, but the document
    is gone all the same: the blob stays in the bucket with no document
    referring to it, and no path is revalidated. *)
Theorem deleteFile_blob_failure env props b e :
  deleteDocument_fault env = None →
  deleteFile_fault env = Some e →
  fst (deleteFile env props b) = Rejected e ∧
  files (snd (deleteFile env props b)) = delete (fileId props) (files b) ∧
  bucket (snd (deleteFile env props b)) = bucket b ∧
  revalidated (snd (deleteFile env props b)) = revalidated b ∧
  console (snd (deleteFile env props b)) =
    (console b ++ [LogError e "Failed to rename file"])%list.
Proof.
  intros Hd Hf. unfold_action. by rewrite Hd, Hf.
Qed.

Lemma deleteFile_blob_failure_witness :
  let env := deployment None (Some "storage unreachable") None None in
  fst (deleteFile env delete_a_txt stored_backend) = Rejected "storage unreachable" ∧
  files (snd (deleteFile env delete_a_txt stored_backend)) !! "doc-1" = None ∧
  is_Some (bucket (snd (deleteFile env delete_a_txt stored_backend)) !! "blob-0").
Proof.
  destruct (deleteFile_blob_failure
              (deployment None (Some "storage unreachable") None None)
              delete_a_txt stored_backend "storage unreachable" eq_refl eq_refl)
    as (H1 & H2 & H3 & _).
  split; [exact H1|]. split.
  - rewrite H2. apply lookup_delete_eq.
  - rewrite H3. vm_compute. eauto.
Defined.

(** ** An invariant of the four actions that write *)

(** No action leaves a document whose blob is missing.  If every stored
    document refers to a blob of the bucket, this is still so after
    [uploadFile], whatever fails in it, provided the identifier minted for the
    new blob was unused; after [deleteFile], whatever fails in it, provided no
    other document refers to the blob it is told to delete; and after
    [renameFile] and [updateFileUsers]. *)
Theorem linked_kept b :
  linked b →
  (∀ env props,
     bucket b !! blob_id env b = None →
     linked (snd (uploadFile env props b))) ∧
  (∀ env props,
     (∀ k d, k ≠ fileId props → files b !! k = Some d →
             fd_bucketFileId (doc_data d) ≠ bucketFileId props) →
     linked (snd (deleteFile env props b))) ∧
  (∀ env uenv props, linked (snd (renameFile env uenv props b))) ∧
  (∀ env uenv props, linked (snd (updateFileUsers env uenv props b))).
Proof.
  intros Hb.
  assert (Hpatch : ∀ id stamp p d,
    files b !! id = Some d →
    ∀ k d', <[id := patched stamp p d]> (files b) !! k = Some d' →
            is_Some (bucket b !! fd_bucketFileId (doc_data d'))).
  { intros id stamp p d Hd k d'. rewrite lookup_insert. case_decide.
    - intros [= <-]. simpl. by apply (Hb id d).
    - apply Hb. }
  split_and!.
  - intros env props Hfresh. unfold blob_id in Hfresh. unfold_action.
    settle env; simpl; intros k d; simpl;
      rewrite ?delete_insert_id by done; intros Hd;
      try (rewrite lookup_insert in Hd; case_decide;
           [injection Hd as <-; simpl; rewrite lookup_insert_eq; by eexists|]);
      rewrite ?lookup_insert; try case_decide; try (by eexists);
      by apply (Hb k d).
  - intros env props Hother. unfold_action.
    settle env; simpl; intros k d; simpl; intros Hd;
      try (apply lookup_delete_Some in Hd as [Hk Hd]);
      try (rewrite lookup_delete_ne by (intros Heq; by apply (Hother k d)));
      by apply (Hb k d).
  - intros env uenv props. unfold_update.
    destruct (updateDocument_fault uenv); simpl; [apply Hb|].
    destruct (files b !! rf_fileId props) as [d|] eqn:Hd; simpl; [|apply Hb].
    intros k d'. by apply Hpatch.
  - intros env uenv props. unfold_update.
    destruct (updateDocument_fault uenv); simpl; [apply Hb|].
    destruct (files b !! uf_fileId props) as [d|] eqn:Hd; simpl; [|apply Hb].
    intros k d'. by apply Hpatch.
Qed.

Lemma linked_kept_witness :
  linked stored_backend ∧
  linked (snd (deleteFile (deployment None (Some "storage unreachable") None None)
                 delete_a_txt stored_backend)) ∧
  linked (snd (uploadFile (deployment None None (Some "document rejected") None)
                 a_txt empty_backend)).
Proof.
  assert (He : linked empty_backend) by (intros k d H; discriminate H).
  assert (Hs : linked stored_backend).
  { apply (proj1 (linked_kept empty_backend He)
             (deployment None None None None) a_txt). reflexivity. }
  split; [exact Hs|]. split.
  - apply (proj1 (proj2 (linked_kept stored_backend Hs))).
    intros k d Hk Hd. exfalso. unfold stored_backend in Hd.
    unfold_action. simpl in Hd.
    rewrite lookup_insert_ne in Hd by (intros Heq; by apply Hk).
    by rewrite lookup_empty in Hd.
  - apply (proj1 (linked_kept empty_backend He)). reflexivity.
Defined.

(** ** Signing up, signing in and signing out *)

(** How [getCurrentUser] settles. *)
Lemma getCurrentUser_settles env a :
  ∃ r, fst (UserActions.getCurrentUser env a) = UserActions.Done r ∧
       UserActions.users (snd (UserActions.getCurrentUser env a))
         = UserActions.users a ∧
       UserActions.cookie (snd (UserActions.getCurrentUser env a))
         = UserActions.cookie a ∧
       (∀ u, r = UserActions.Found u →
          ∃ session accountId,
            UserActions.cookie a = Some session ∧
            UserActions.account_get_result env session = Resolved accountId ∧
            head (of_account accountId a) = Some u) ∧
       (UserActions.cookie a = None ∨ UserActions.cookie a = Some "" →
        r = UserActions.Undefined ∧
        UserActions.lines (snd (UserActions.getCurrentUser env a)) =
          (UserActions.lines a
             ++ [UserActions.Logged (UserActions.Err "No session") None])%list).
Proof.
  assert (Hno : ∀ s : string, s = "" ∨ Js.truthy_string s = true)
    by (intros [|]; auto).
  unfold of_account. unfold_flow.
  destruct (UserActions.cookie a) as [session|] eqn:Hc; simpl.
  2:{ eexists. split_and!; by try intros [|]. }
  destruct (Hno session) as [->|Ht]; [|rewrite Ht]; simpl.
  { eexists. split_and!; by try intros [|]. }
  assert (Hs : Some session = None ∨ Some session = Some "" → False).
  { intros [|[= ->]]; done. }
  unfold UserActions.settle.
  destruct (UserActions.account_get_result env session) as [acc|e] eqn:Hg; simpl.
  2:{ eexists. split_and!.
      all: first [done | by intros ? [=] | intros H; by destruct (Hs H)]. }
  destruct (UserActions.listUsers_fault env); simpl.
  { eexists. split_and!.
    all: first [done | by intros ? [=] | intros H; by destruct (Hs H)]. }
  destruct (filter _ (UserActions.users a)) as [|u l] eqn:Hf; simpl.
  { eexists. split_and!.
    all: first [done | by intros ? [=] | intros H; by destruct (Hs H)]. }
  eexists. split_and!; try done.
  intros u' [= <-]. exists session, acc. by rewrite Hf.
Qed.

(** [getCurrentUser] never throws.  Without a session cookie, or with an
    empty one, it logs "No session" and resolves with [undefined]; when
    [account.get] rejects, or the listing of the users collection does, it
    logs that error and resolves with [undefined]; in each of these cases it
    logs the error once, without a message, and changes nothing else.  When
    both requests resolve it logs nothing and resolves with the oldest
    document of the users collection for the account of the session, or with
    [null] when the account has none.  The collection and the cookie are
    never changed. *)
Theorem getCurrentUser_never_throws env a :
  UserActions.users (snd (UserActions.getCurrentUser env a)) = UserActions.users a ∧
  UserActions.cookie (snd (UserActions.getCurrentUser env a))
    = UserActions.cookie a ∧
  match UserActions.cookie a with
  | Some (String c r) =>
      match UserActions.account_get_result env (String c r) with
      | Rejected e =>
          UserActions.getCurrentUser env a =
            (UserActions.Done UserActions.Undefined,
             UserActions.add_line (UserActions.Logged (UserActions.Err e) None) a)
      | Resolved accountId =>
          match UserActions.listUsers_fault env with
          | Some e =>
              UserActions.getCurrentUser env a =
                (UserActions.Done UserActions.Undefined,
                 UserActions.add_line
                   (UserActions.Logged (UserActions.Err e) None) a)
          | None =>
              UserActions.getCurrentUser env a =
                (UserActions.Done
                   (match head (of_account accountId a) with
                    | Some u => UserActions.Found u
                    | None => UserActions.Null
                    end), a)
          end
      end
  | _ =>
      UserActions.getCurrentUser env a =
        (UserActions.Done UserActions.Undefined,
         UserActions.add_line
           (UserActions.Logged (UserActions.Err "No session") None) a)
  end.
Proof.
  unfold of_account. unfold_flow.
  destruct (UserActions.cookie a) as [[|c r]|] eqn:Hc; simpl; [done| |done].
  unfold UserActions.settle.
  destruct (UserActions.account_get_result env (String c r)) as [acc|e];
    simpl; [|done].
  destruct (UserActions.listUsers_fault env); simpl; [done|].
  by destruct (filter _ (UserActions.users a)) as [|u l].
Qed.

(** [signInUser] for an email that no user document has resolves with
    [accountId: null] and the error "User not found", and asks for no
    token.  For an email that has a document it asks for exactly one token
    and resolves with the [accountId] stored in the oldest such document; when
    the token request fails, the error is thrown on after being logged twice,
    by [sendEmailOTP] and by [signInUser]. *)
Theorem signInUser_cases env a email :
  UserActions.listUsers_fault env = None →
  match head (with_email email a) with
  | None =>
      UserActions.signInUser env email a =
        (UserActions.Done {| UserActions.si_accountId := None;
                             UserActions.si_error := Some "User not found" |}, a)
  | Some u =>
      UserActions.tokens (snd (UserActions.signInUser env email a)) =
        (UserActions.tokens a ++ [(next_id env a, email)])%list ∧
      UserActions.users (snd (UserActions.signInUser env email a))
        = UserActions.users a ∧
      match UserActions.createEmailToken_result env (next_id env a) email with
      | Resolved _ =>
          fst (UserActions.signInUser env email a) =
            UserActions.Done {| UserActions.si_accountId :=
                                  Some (UserActions.ud_accountId u);
                                UserActions.si_error := None |}
      | Rejected e =>
          fst (UserActions.signInUser env email a)
            = UserActions.Throw (UserActions.Err e) ∧
          UserActions.lines (snd (UserActions.signInUser env email a)) =
            (UserActions.lines a ++
             [UserActions.Logged (UserActions.Err e)
                (Some "Failed to send email OTP");
              UserActions.Logged (UserActions.Err e)
                (Some "Failed to sign in user")])%list
      end
  end.
Proof.
  intros Hl. unfold with_email, next_id. unfold_flow. rewrite Hl. simpl.
  destruct (filter _ (UserActions.users a)) as [|u l] eqn:Hf; simpl; [done|].
  unfold UserActions.settle.
  destruct (UserActions.createEmailToken_result env _ email); simpl.
  - done.
  - split_and!; try done. by rewrite <- (assoc_L (++)).
Qed.

Lemma signInUser_cases_witness :
  fst (UserActions.signInUser provider "alice@x.com" alice_signed_up) =
    UserActions.Done {| UserActions.si_accountId := Some "acc-0";
                        UserActions.si_error := None |} ∧
  UserActions.signInUser provider "bob@x.com" alice_signed_up =
    (UserActions.Done {| UserActions.si_accountId := None;
                         UserActions.si_error := Some "User not found" |},
     alice_signed_up).
Proof.
  split.
  - exact (proj2 (proj2 (signInUser_cases provider alice_signed_up "alice@x.com"
                           eq_refl))).
  - exact (signInUser_cases provider alice_signed_up "bob@x.com" eq_refl).
Defined.

(** A sign-up that resolves has asked for one token and resolves with the
    account the token belongs to.  It adds a user document, with the name,
    the email, the placeholder avatar and that account, only when no document
    had the email; so a collection with one document per email stays so. *)
Theorem createAccount_users env a fullName email accountId a' :
  UserActions.createAccount env fullName email a = (UserActions.Done accountId, a') →
  UserActions.createEmailToken_result env (next_id env a) email
    = Resolved accountId ∧
  accountId ≠ "" ∧
  UserActions.tokens a' = (UserActions.tokens a ++ [(next_id env a, email)])%list ∧
  UserActions.cookie a' = UserActions.cookie a ∧
  match head (with_email email a) with
  | Some _ => UserActions.users a' = UserActions.users a
  | None =>
      UserActions.users a' =
        (UserActions.users a ++
         [{| UserActions.ud_id :=
               UserActions.auth_unique env (S (UserActions.auth_minted a));
             UserActions.ud_fullName := fullName;
             UserActions.ud_email := email;
             UserActions.ud_avatar := UserActions.avatarPlaceholderUrl env;
             UserActions.ud_accountId := accountId |}])%list
  end ∧
  (NoDup (UserActions.ud_email <$> UserActions.users a) →
   NoDup (UserActions.ud_email <$> UserActions.users a')).
Proof.
  unfold with_email, next_id. unfold_flow.
  destruct (UserActions.listUsers_fault env); [discriminate|]. simpl.
  unfold UserActions.settle.
  destruct (UserActions.createEmailToken_result env _ email) as [acc|e] eqn:Ht;
    simpl; [|discriminate].
  destruct (Js.truthy_string acc) eqn:Hacc; simpl; [|discriminate].
  assert (Hne : acc ≠ "") by (intros ->; done).
  destruct (filter _ (UserActions.users a)) as [|u l] eqn:Hf; simpl.
  - destruct (UserActions.createUser_fault env); [discriminate|]. simpl.
    intros [= <- <-]. simpl. split_and!; try done.
    intros Hnd. rewrite fmap_app. apply NoDup_app. split_and!; [done| |].
    + intros x Hx ->%list_elem_of_singleton.
      apply list_elem_of_fmap in Hx as (v & Hv & Hin).
      assert (Hv' : v ∈ filter (λ u, UserActions.ud_email u = email)
                        (UserActions.users a))
        by (by apply list_elem_of_filter).
      rewrite Hf in Hv'. by apply elem_of_nil in Hv'.
    + apply NoDup_singleton.
  - intros [= <- <-]. simpl. by split_and!.
Qed.

Lemma createAccount_users_witness :
  ∃ accountId a',
    UserActions.createAccount provider "Alice" "alice@x.com" nobody
      = (UserActions.Done accountId, a') ∧
    accountId = "acc-0" ∧
    (UserActions.ud_email <$> UserActions.users a') = ["alice@x.com"] ∧
    ∃ a'', UserActions.createAccount provider "Alice" "alice@x.com" a'
             = (UserActions.Done "id-n", a'') ∧
           UserActions.users a'' = UserActions.users a'.
Proof.
  eexists _, _. split; [vm_compute; reflexivity|].
  split; [reflexivity|]. split; [reflexivity|].
  eexists. split; [vm_compute; reflexivity|].
  destruct (createAccount_users provider alice_signed_up "Alice" "alice@x.com"
              _ _ eq_refl) as (_ & _ & _ & _ & Hu & _).
  exact Hu.
Defined.

(** A sign-up that fails leaves no user document behind.  Unless it failed
    while looking the email up, the token request has been made all the
    same: when it is the creation of the user document that fails, the code
    has been sent although the sign-up is reported as failed. *)
Theorem createAccount_failure env a fullName email t a' :
  UserActions.createAccount env fullName email a = (UserActions.Throw t, a') →
  UserActions.users a' = UserActions.users a ∧
  UserActions.cookie a' = UserActions.cookie a ∧
  (UserActions.listUsers_fault env = None →
   UserActions.tokens a' = (UserActions.tokens a ++ [(next_id env a, email)])%list) ∧
  (∀ e, UserActions.listUsers_fault env = Some e →
        t = UserActions.Err e ∧ UserActions.tokens a' = UserActions.tokens a).
Proof.
  unfold next_id. unfold_flow.
  destruct (UserActions.listUsers_fault env) as [e0|]; simpl.
  { intros [= <- <-]. split_and!; try done. by intros e [= <-]. }
  unfold UserActions.settle.
  destruct (UserActions.createEmailToken_result env _ email) as [acc|e] eqn:Ht;
    simpl.
  2:{ intros [= <- <-]. by split_and!. }
  destruct (Js.truthy_string acc); simpl.
  2:{ intros [= <- <-]. by split_and!. }
  destruct (filter _ (UserActions.users a)) as [|u l]; simpl; [|discriminate].
  destruct (UserActions.createUser_fault env); simpl; [|discriminate].
  intros [= <- <-]. by split_and!.
Qed.

Lemma createAccount_failure_witness :
  let env :=
    {| UserActions.auth_unique := λ _, "id";
       UserActions.avatarPlaceholderUrl := "";
       UserActions.listUsers_fault := None;
       UserActions.createUser_fault := Some "collection unavailable";
       UserActions.createEmailToken_result := λ userId _, Resolved userId;
       UserActions.createSession_result := λ _ _, Rejected "no";
       UserActions.account_get_result := λ _, Rejected "no";
       UserActions.deleteSession_fault := None |} in
  ∃ a', UserActions.createAccount env "Bob" "bob@x.com" nobody
          = (UserActions.Throw (UserActions.Err "collection unavailable"), a') ∧
        UserActions.users a' = [] ∧
        UserActions.tokens a' = [("id", "bob@x.com")].
Proof.
  cbv zeta. eexists. split; [vm_compute; reflexivity|].
  match goal with
  | |- context [UserActions.users ?s] =>
      destruct (createAccount_failure
                  {| UserActions.auth_unique := λ _, "id";
                     UserActions.avatarPlaceholderUrl := "";
                     UserActions.listUsers_fault := None;
                     UserActions.createUser_fault := Some "collection unavailable";
                     UserActions.createEmailToken_result := λ userId _, Resolved userId;
                     UserActions.createSession_result := λ _ _, Rejected "no";
                     UserActions.account_get_result := λ _, Rejected "no";
                     UserActions.deleteSession_fault := None |}
                  nobody "Bob" "bob@x.com"
                  (UserActions.Err "collection unavailable") s eq_refl)
        as (Hu & _ & Ht & _)
  end.
  split; [exact Hu|exact (Ht eq_refl)].
Defined.

(** Entering the code: when the session is created, its secret becomes the
    session cookie and nothing else changes; when it is refused, the cookie is
    left as it was and the error is thrown on after being logged.  With the
    cookie set, the root layout renders the page for the oldest user document
    of the account the secret stands for. *)
Theorem verifySecret_then_layout env a accountId password :
  match UserActions.createSession_result env accountId password with
  | Rejected e =>
      UserActions.verifySecret env accountId password a =
        (UserActions.Throw (UserActions.Err e),
         UserActions.add_line
           (UserActions.Logged (UserActions.Err e) (Some "Failed to verify OTP")) a)
  | Resolved s =>
      UserActions.verifySecret env accountId password a =
        (UserActions.Done (UserActions.session_id s),
         UserActions.set_cookie (Some (UserActions.session_secret s)) a) ∧
      ∀ env' account u,
        UserActions.session_secret s ≠ "" →
        UserActions.account_get_result env' (UserActions.session_secret s)
          = Resolved account →
        UserActions.listUsers_fault env' = None →
        head (of_account account a) = Some u →
        fst (UserActions.layout env'
               (snd (UserActions.verifySecret env accountId password a)))
          = UserActions.Done u
  end.
Proof.
  destruct (UserActions.createSession_result env accountId password)
    as [s|e] eqn:Hs.
  - assert (Hrun : UserActions.verifySecret env accountId password a =
      (UserActions.Done (UserActions.session_id s),
       UserActions.set_cookie (Some (UserActions.session_secret s)) a)).
    { unfold_flow. unfold UserActions.settle. by rewrite Hs. }
    split; [done|]. rewrite Hrun. clear Hrun Hs.
    intros env' account u Hne Hget Hl Hu. unfold of_account in Hu.
    unfold_flow. simpl.
    destruct (UserActions.session_secret s) as [|c r] eqn:Hsec; [done|]. simpl.
    unfold UserActions.settle. rewrite Hget. simpl. rewrite Hl. simpl.
    destruct (filter _ (UserActions.users a)) as [|v l]; [done|].
    simpl in *. by injection Hu as ->.
  - unfold_flow. unfold UserActions.settle. by rewrite Hs.
Qed.

(** How [signOutUser] ends, by the session cookie. *)
Lemma signOutUser_ends env a :
  match UserActions.cookie a with
  | Some (String c r) =>
      fst (UserActions.signOutUser env a)
        = UserActions.Throw (UserActions.NextRedirect "/sign-in") ∧
      UserActions.users (snd (UserActions.signOutUser env a)) = UserActions.users a ∧
      match UserActions.deleteSession_fault env with
      | None =>
          UserActions.cookie (snd (UserActions.signOutUser env a)) = None ∧
          UserActions.closed (snd (UserActions.signOutUser env a)) =
            (UserActions.closed a ++ [String c r])%list ∧
          UserActions.lines (snd (UserActions.signOutUser env a)) = UserActions.lines a
      | Some e =>
          UserActions.cookie (snd (UserActions.signOutUser env a))
            = Some (String c r) ∧
          UserActions.closed (snd (UserActions.signOutUser env a))
            = UserActions.closed a ∧
          UserActions.lines (snd (UserActions.signOutUser env a)) =
            (UserActions.lines a ++
             [UserActions.Logged (UserActions.Err e)
                (Some "Failed to sign out user")])%list
      end
  | _ =>
      UserActions.signOutUser env a = (UserActions.Throw (UserActions.Err "No session"), a)
  end.
Proof.
  unfold_flow. destruct (UserActions.cookie a) as [[|c r]|] eqn:Hc; simpl;
    [done| |done].
  destruct (UserActions.deleteSession_fault env); simpl; by rewrite ?Hc.
Qed.

(** Signing out with a session cookie always ends in the redirect to
    "/sign-in".  When the session could be deleted the cookie is removed; when
    it could not, the cookie stays and the error is logged, but what leaves
    the function is still the redirect, not the error.  Without a session
    cookie, signing out throws "No session", redirects nowhere and changes
    nothing. *)
Theorem signOutUser_redirects env a :
  match UserActions.cookie a with
  | Some (String c r) =>
      fst (UserActions.signOutUser env a)
        = UserActions.Throw (UserActions.NextRedirect "/sign-in") ∧
      UserActions.users (snd (UserActions.signOutUser env a)) = UserActions.users a ∧
      match UserActions.deleteSession_fault env with
      | None =>
          UserActions.cookie (snd (UserActions.signOutUser env a)) = None ∧
          UserActions.closed (snd (UserActions.signOutUser env a)) =
            (UserActions.closed a ++ [String c r])%list ∧
          UserActions.lines (snd (UserActions.signOutUser env a)) = UserActions.lines a
      | Some e =>
          UserActions.cookie (snd (UserActions.signOutUser env a))
            = Some (String c r) ∧
          UserActions.closed (snd (UserActions.signOutUser env a))
            = UserActions.closed a ∧
          UserActions.lines (snd (UserActions.signOutUser env a)) =
            (UserActions.lines a ++
             [UserActions.Logged (UserActions.Err e)
                (Some "Failed to sign out user")])%list
      end
  | _ =>
      UserActions.signOutUser env a = (UserActions.Throw (UserActions.Err "No session"), a)
  end.
Proof. apply signOutUser_ends. Qed.

(** The root layout never fails with an error.  It renders the page only for
    a user document of the collection, the oldest one of the account that the
    session cookie belongs to; in every other case, a missing cookie and a
    failed request included, it redirects to "/sign-in".  In particular it
    redirects after a sign-out that removed the cookie. *)
Theorem layout_guard env a :
  (match fst (UserActions.layout env a) with
   | UserActions.Done u =>
       ∃ session account,
         UserActions.cookie a = Some session ∧
         UserActions.account_get_result env session = Resolved account ∧
         head (of_account account a) = Some u
   | UserActions.Throw t => t = UserActions.NextRedirect "/sign-in"
   end) ∧
  (UserActions.cookie a = None →
   fst (UserActions.layout env a)
     = UserActions.Throw (UserActions.NextRedirect "/sign-in")) ∧
  (∀ env' session,
     UserActions.cookie a = Some session → session ≠ "" →
     UserActions.deleteSession_fault env' = None →
     fst (UserActions.layout env (snd (UserActions.signOutUser env' a)))
       = UserActions.Throw (UserActions.NextRedirect "/sign-in")).
Proof.
  assert (Hlayout : ∀ b, UserActions.layout env b =
    (match fst (UserActions.getCurrentUser env b) with
     | UserActions.Done (UserActions.Found u) => UserActions.Done u
     | UserActions.Done _ => UserActions.Throw (UserActions.NextRedirect "/sign-in")
     | UserActions.Throw t => UserActions.Throw t
     end, snd (UserActions.getCurrentUser env b))).
  { intros b. unfold UserActions.layout at 1.
    unfold mbind, UserActions.Flow_bind, UserActions.flow_bind.
    destruct (UserActions.getCurrentUser env b) as [[[u| |]|t] b']; done. }
  assert (Hnone : ∀ b, UserActions.cookie b = None →
    fst (UserActions.layout env b)
      = UserActions.Throw (UserActions.NextRedirect "/sign-in")).
  { intros b Hb. rewrite Hlayout. simpl.
    destruct (getCurrentUser_settles env b) as (r & -> & _ & _ & _ & Hr).
    destruct (Hr (or_introl Hb)) as [-> _]. done. }
  split_and!.
  - rewrite Hlayout. simpl.
    destruct (getCurrentUser_settles env a) as (r & -> & _ & _ & Hfound & _).
    destruct r as [u| |]; [by apply Hfound|done..].
  - apply Hnone.
  - intros env' session Hc Hne Hd. apply Hnone.
    pose proof (signOutUser_ends env' a) as Hout. rewrite Hc in Hout.
    destruct session as [|c r]; [done|]. rewrite Hd in Hout.
    by destruct Hout as (_ & _ & -> & _).
Qed.
